(** * Black holes: phase updates, active-time transform and offline ticks

    A shallow embedding of the black-hole module of Antimatter Dimensions
    (classes [BlackHoleUpgradeState], [BlackHoleState] and the [BlackHoles]
    object), with the properties the specification states about it.

    The code is embedded twice.  First with JavaScript numbers idealised as
    exact rationals ([Q]): rounding of IEEE doubles is outside that model,
    and so are [NaN] and the infinities (a division by zero yields [0] in
    [Q]; the model and the program agree wherever no divisor is zero and no
    operation rounds).  [Math.floor] is [Qfloor], the [%] operator is the
    truncated remainder [js_rem].  Then, in [Double], the numeric functions
    once more on binary64 doubles, with the rounding the program has.  What
    does not depend on rounding is stated on the first embedding; what does
    is stated on the second, and says where it needs the steps of a call to
    be exact. *)

From Stdlib Require Import PrimFloat SpecFloat FloatOps FloatAxioms.
From Stdlib Require Import QArith Qround Qabs Qminmax Qpower ZArith List Bool Lia Lqa.
Import ListNotations.

Local Open Scope Q_scope.

Set Warnings "-inexact-float".

(** ** Numbers *)

Module JsNum.

(** [Math.trunc]: the integer part, rounded towards zero. *)
Definition Qtrunc (x : Q) : Z := Z.quot (Qnum x) (Zpos (Qden x)).

(** [Math.floor (x / y)] as an integer. *)
Definition floor_div (x y : Q) : Z := Qfloor (x / y).

(** [x % y]: the remainder has the sign of the dividend. *)
Definition js_rem (x y : Q) : Q := x - y * inject_Z (Qtrunc (x / y)).

(** [Math.min], [Math.max], [Math.abs] on finite numbers. *)
Definition js_min (x y : Q) : Q := Qmin x y.
Definition js_max (x y : Q) : Q := Qmax x y.

(** [x >= y] and [x < y] as the booleans a conditional tests. *)
Definition geb (x y : Q) : bool := Qle_bool y x.
Definition ltb (x y : Q) : bool := negb (Qle_bool y x).

(** [Array.prototype.sum] and [Array.prototype.last] (array extensions of
    the code base; [last] of an empty array is [undefined], which never
    arises below since the arrays always hold their first element). *)
Definition sum (l : list Q) : Q := fold_left Qplus l 0.
Definition last (l : list Q) : Q := List.last l 0.

End JsNum.
Import JsNum.

(** ** One black hole *)

(** [player.blackHole[id]]: the persisted fields of one black hole. *)
Record BlackHoleData := mkData {
  unlocked : bool;
  active : bool;
  phase : Q;
  activations : Z;
  intervalUpgrades : nat;
  powerUpgrades : nat;
  durationUpgrades : nat
}.

(** The values the three [BlackHoleUpgradeState]s of the constructor compute
    ([calculateValue (getAmount ())]) for the black hole built from [id]. *)
Module Upgrades.

Definition intervalValue (id : nat) (amount : nat) : Q :=
  (3600 / (10 ^ Z.of_nat id)) * (8 # 10) ^ Z.of_nat amount.

Definition powerValue (id : nat) (amount : nat) : Q :=
  (180 / (2 ^ Z.of_nat id)) * (135 # 100) ^ Z.of_nat amount.

Definition durationValue (id : nat) (amount : nat) : Q :=
  (10 - inject_Z (Z.of_nat id) * 3) * (13 # 10) ^ Z.of_nat amount.

End Upgrades.

(** ** Upgrades of one black hole *)

(** The events the code dispatches or the calls it makes on other modules. *)
Inductive GameEvent :=
| BLACK_HOLE_UPGRADE_BOUGHT
| AchievementUnlock (id : nat).

(** A [BlackHoleUpgradeState]: the configuration its constructor receives.
    [getAmount] and [setAmount] read and write one counter of the data of
    the black hole. *)
Record BlackHoleUpgradeState := mkUpgrade {
  getAmount : BlackHoleData -> nat;
  setAmount : nat -> BlackHoleData -> BlackHoleData;
  calculateValue : nat -> Q;
  initialCost : Q;
  costMult : Q
}.

Module BlackHoleUpgrade.

(** [wormholeCostMultipliers[id]]; [1e35] is written out.  An [id] past the
    array would read [undefined]; it is [0] here. *)
Definition wormholeCostMultipliers : list Q := [1; 1000; 10 ^ 35].

(** The three upgrades the constructor of [BlackHoleState] builds. *)
Definition intervalUpgrade (id : nat) : BlackHoleUpgradeState :=
  {| getAmount := intervalUpgrades;
     setAmount := fun amount d =>
       mkData (unlocked d) (active d) (phase d) (activations d)
              amount (powerUpgrades d) (durationUpgrades d);
     calculateValue := Upgrades.intervalValue id;
     initialCost := 15 * nth id wormholeCostMultipliers 0;
     costMult := 35 # 10 |}.

Definition powerUpgrade (id : nat) : BlackHoleUpgradeState :=
  {| getAmount := powerUpgrades;
     setAmount := fun amount d =>
       mkData (unlocked d) (active d) (phase d) (activations d)
              (intervalUpgrades d) amount (durationUpgrades d);
     calculateValue := Upgrades.powerValue id;
     initialCost := 20 * nth id wormholeCostMultipliers 0;
     costMult := 2 |}.

Definition durationUpgrade (id : nat) : BlackHoleUpgradeState :=
  {| getAmount := durationUpgrades;
     setAmount := fun amount d =>
       mkData (unlocked d) (active d) (phase d) (activations d)
              (intervalUpgrades d) (powerUpgrades d) amount;
     calculateValue := Upgrades.durationValue id;
     initialCost := 10 * nth id wormholeCostMultipliers 0;
     costMult := 4 |}.

(** [this.incrementAmount]. *)
Definition incrementAmount (u : BlackHoleUpgradeState) (d : BlackHoleData) : BlackHoleData :=
  setAmount u (getAmount u d + 1) d.

(** [get isAffordable], for the cost the upgrade currently shows. *)
Definition isAffordable (cost rm : Q) : bool := geb rm cost.

(** [purchase()], for the cost the upgrade currently shows: the reality
    machines, the data of the black hole and the events dispatched. *)
Definition purchase (u : BlackHoleUpgradeState) (cost rm : Q) (d : BlackHoleData)
  : Q * BlackHoleData * list GameEvent :=
  if negb (isAffordable cost rm) then (rm, d, [])
  else (rm - cost, incrementAmount u d, [BLACK_HOLE_UPGRADE_BOUGHT]).

(** Purchase attempts in a row, each at the cost shown at its time. *)
Fixpoint purchases (u : BlackHoleUpgradeState) (costs : list Q) (rm : Q) (d : BlackHoleData)
  : Q * BlackHoleData :=
  match costs with
  | [] => (rm, d)
  | cost :: rest =>
      let r := purchase u cost rm d in
      purchases u rest (fst (fst r)) (snd (fst r))
  end.

End BlackHoleUpgrade.

(** A [BlackHoleState] together with the data it reads through [_data]:
    [bh_id] is [this.id] (the constructor argument plus one); [interval],
    [power] and [duration] are the values of the three upgrade getters. *)
Record BlackHoleState := mkBlackHole {
  bh_id : nat;
  interval : Q;
  power : Q;
  duration : Q;
  _data : BlackHoleData
}.

(** Outcome of running a piece of JavaScript: a value, or an exception. *)
Inductive completion (A : Type) : Type :=
| Normal (a : A)
| Throw.
Arguments Normal {A} a.
Arguments Throw {A}.

(** [new BlackHoleState(id)], read against the data [d] of its slot.  The
    constructor has no [throw] and checks nothing. *)
Definition constructor (id : nat) (d : BlackHoleData) : completion BlackHoleState :=
  Normal {| bh_id := id + 1;
            interval := Upgrades.intervalValue id (intervalUpgrades d);
            power := Upgrades.powerValue id (powerUpgrades d);
            duration := Upgrades.durationValue id (durationUpgrades d);
            _data := d |}.

Definition isCharged (b : BlackHoleState) : bool := active (_data b).
Definition get_phase (b : BlackHoleState) : Q := phase (_data b).
Definition cycleLength (b : BlackHoleState) : Q := interval b + duration b.

Definition set_phase (b : BlackHoleState) (p : Q) : BlackHoleState :=
  let d := _data b in
  mkBlackHole (bh_id b) (interval b) (power b) (duration b)
    (mkData (unlocked d) (active d) p (activations d)
            (intervalUpgrades d) (powerUpgrades d) (durationUpgrades d)).

Definition set_active (b : BlackHoleState) (a : bool) : BlackHoleState :=
  let d := _data b in
  mkBlackHole (bh_id b) (interval b) (power b) (duration b)
    (mkData (unlocked d) a (phase d) (activations d)
            (intervalUpgrades d) (powerUpgrades d) (durationUpgrades d)).

Definition set_activations (b : BlackHoleState) (n : Z) : BlackHoleState :=
  let d := _data b in
  mkBlackHole (bh_id b) (interval b) (power b) (duration b)
    (mkData (unlocked d) (active d) (phase d) n
            (intervalUpgrades d) (powerUpgrades d) (durationUpgrades d)).

(** What a call of [updatePhase] does besides changing numbers: each
    assignment to [_data.active], and each notification sent. *)
Inductive Event :=
| SetActive (value : bool)
| Notify (id : nat) (activated : bool).

(** [updatePhase(activePeriod)].  [showBlackHoles] is the user's setting
    [GameUI.notify.showBlackHoles].  The result is the new state and the
    events of the call, in order. *)
Definition updatePhase (showBlackHoles : bool) (b : BlackHoleState) (activePeriod : Q)
  : BlackHoleState * list Event :=
  let b1 := set_phase b (get_phase b + activePeriod) in
  let b2 :=
    if geb (get_phase b1) (cycleLength b1) then
      let b' := set_activations b1
                  (activations (_data b1) + floor_div (get_phase b1) (cycleLength b1))%Z in
      set_phase b' (js_rem (get_phase b') (cycleLength b'))
    else b1 in
  if isCharged b2 then
    if geb (get_phase b2) (duration b2) then
      let b3 := set_phase b2 (get_phase b2 - duration b2) in
      let b4 := set_active b3 false in
      (b4, SetActive false :: (if showBlackHoles then [Notify (bh_id b4) false] else []))
    else (b2, [])
  else if geb (get_phase b2) (interval b2) then
    let b3 := set_phase b2 (get_phase b2 - interval b2) in
    let b4 := set_activations b3 (activations (_data b3) + 1)%Z in
    let b5 := set_active b4 true in
    (b5, SetActive true :: (if showBlackHoles then [Notify (bh_id b5) true] else []))
  else (b2, []).

(** The number of times a call flipped the charged flag. *)
Definition toggles (evs : list Event) : nat :=
  length (filter (fun e => match e with SetActive _ => true | Notify _ _ => false end) evs).

(** [get timeUntilNextDeactivation]. *)
Definition timeUntilNextDeactivation (b : BlackHoleState) : Q :=
  if isCharged b then duration b - get_phase b
  else cycleLength b - get_phase b.

(** [realTimeWhileActive(time)]. *)
Definition realTimeWhileActive (b : BlackHoleState) (time : Q) : Q :=
  let nextDeactivation := timeUntilNextDeactivation b in
  let cooldown := interval b in
  let duration := duration b in
  let fullCycle := cycleLength b in
  let currentActivationDuration := js_min nextDeactivation duration in
  let activeCyclesUntilLastDeactivation :=
    floor_div (time - nextDeactivation) fullCycle in
  let activeTimeUntilLastDeactivation :=
    duration * inject_Z activeCyclesUntilLastDeactivation in
  let timeLeftAfterLastDeactivation :=
    js_rem (time - nextDeactivation + fullCycle) fullCycle in
  let lastActivationDuration :=
    js_max (timeLeftAfterLastDeactivation - cooldown) 0 in
  currentActivationDuration + activeTimeUntilLastDeactivation + lastActivationDuration.

(** ** The chain of black holes *)

(** The part of the global state the [BlackHoles] object reads:
    [BlackHoleState.list] with the data of each slot, [Enslaved.isRunning]
    and [player.blackHolePause]. *)
Record Game := mkGame {
  list_ : list BlackHoleState;
  enslavedIsRunning : bool;
  blackHolePause : bool
}.

Inductive GameSpeedEffect := EC12 | TIMEGLYPH | BLACKHOLE.

Definition isUnlocked (g : Game) (b : BlackHoleState) : bool :=
  unlocked (_data b) && negb (enslavedIsRunning g).

(** [BlackHole(id)]: [BlackHoleState.list[id - 1]], [undefined] when there
    is no such element. *)
Definition BlackHole (g : Game) (id : nat) : option BlackHoleState :=
  match id with
  | O => None
  | S k => nth_error (list_ g) k
  end.

(** How [BlackHoleState.list] is built: the element at index [i] was
    constructed from [i], so its [id] is [i + 1] (and its [_data] is the
    slot [i] of [player.blackHole]). *)
Definition wellNumbered (g : Game) : Prop :=
  forall (i : nat) (b : BlackHoleState), nth_error (list_ g) i = Some b -> bh_id b = S i.

(** [get isActive]: charged, and either the first black hole or the
    previous one is active too.  The getter calls itself on
    [BlackHole(this.id - 1)]; [fuel] bounds the depth of these calls, [None]
    says the bound was reached, and [Throw] is the [TypeError] of reading
    [isActive] on [undefined]. *)
Fixpoint isActive (fuel : nat) (g : Game) (b : BlackHoleState) : option (completion bool) :=
  match fuel with
  | O => None
  | S fuel' =>
      if isCharged b then
        if Nat.eqb (bh_id b) 1 then Some (Normal true)
        else
          match BlackHole g (bh_id b - 1) with
          | None => Some Throw
          | Some previous => isActive fuel' g previous
          end
      else Some (Normal false)
  end.

(** What [unlock] and [purchase] read and write besides the black holes:
    [player.reality.realityMachines] (a [Decimal], idealised like the other
    numbers). *)
Record Player := mkPlayer {
  world : Game;
  realityMachines : Q
}.

Definition set_unlocked (b : BlackHoleState) (u : bool) : BlackHoleState :=
  let d := _data b in
  mkBlackHole (bh_id b) (interval b) (power b) (duration b)
    (mkData u (active d) (phase d) (activations d)
            (intervalUpgrades d) (powerUpgrades d) (durationUpgrades d)).

Module BlackHoles.

(** The [for (const blackHole of this.list)] loop of
    [realTimePeriodsWithBlackHoleActive], with its [break]. *)
Fixpoint activeLoop (g : Game) (bhs : list BlackHoleState) (activePeriods : list Q)
  : list Q :=
  match bhs with
  | [] => activePeriods
  | blackHole :: rest =>
      if negb (isUnlocked g blackHole) then activePeriods
      else
        let activeTime := realTimeWhileActive blackHole (last activePeriods) in
        activeLoop g rest (activePeriods ++ [activeTime])
  end.

Definition realTimePeriodsWithBlackHoleActive (g : Game) (realTime : Q) : list Q :=
  activeLoop g (list_ g) [realTime].

(** The [for (let i = 0; i < activePeriods.length - 1; i++)] loop of
    [realTimePeriodsWithBlackHoleEffective]. *)
Fixpoint differences (activePeriods : list Q) : list Q :=
  match activePeriods with
  | x :: ((y :: _) as tl) => (x - y) :: differences tl
  | _ => []
  end.

Definition realTimePeriodsWithBlackHoleEffective (g : Game) (realTime : Q) : list Q :=
  let activePeriods := realTimePeriodsWithBlackHoleActive g realTime in
  differences activePeriods ++ [last activePeriods].

(** [array.map((period, i) => period * speedups[i])], from index [i] on.
    An index past the end of [speedups] would read [undefined]; it is [0]
    here, and [speedups_length] shows the index is always in range. *)
Fixpoint mapTimes (i : nat) (periods speedups : list Q) : list Q :=
  match periods with
  | [] => []
  | period :: rest => period * nth i speedups 0 :: mapTimes (S i) rest speedups
  end.

Definition calculateGameTimeFromRealTime (g : Game) (realTime : Q) (speedups : list Q) : Q :=
  let effectivePeriods := realTimePeriodsWithBlackHoleEffective g realTime in
  sum (mapTimes 0 effectivePeriods speedups).

(** [binarySearch]: the [while (true)] loop, run for at most [fuel]
    iterations.  [None] says the loop is still running after [fuel]
    iterations; the loop has no other exit than its [return median]. *)
Fixpoint binarySearch (fuel : nat) (start end_ : Q) (evaluationFunction : Q -> Q)
    (target tolerance : Q) : option Q :=
  match fuel with
  | O => None
  | S fuel' =>
      let median := (start + end_) / 2 in
      let error := evaluationFunction median - target in
      if ltb (Qabs error) tolerance then Some median
      else if ltb error 0
           then binarySearch fuel' median end_ evaluationFunction target tolerance
           else binarySearch fuel' start median evaluationFunction target tolerance
  end.

Section Speedups.

(** [getGameSpeedupFactor (effectsToConsider, blackHoleOverride,
    blackHolesActiveOverride)] belongs to the game-speed code; an argument
    left out or [undefined] is [None]. *)
Variable getGameSpeedupFactor : list GameSpeedEffect -> option Q -> option nat -> Q.

Fixpoint speedupLoop (g : Game) (effectsToConsider : list GameSpeedEffect)
    (speedupWithoutBlackHole : Q) (bhs : list BlackHoleState) (speedups : list Q)
  : list Q :=
  match bhs with
  | [] => speedups
  | blackHole :: rest =>
      if negb (isUnlocked g blackHole) then speedups
      else
        let speedupFactor :=
          getGameSpeedupFactor effectsToConsider None (Some (bh_id blackHole)) in
        speedupLoop g effectsToConsider speedupWithoutBlackHole rest
          (speedups ++ [speedupFactor / speedupWithoutBlackHole])
  end.

Definition calculateSpeedups (g : Game) : list Q :=
  let effectsToConsider := [EC12; TIMEGLYPH; BLACKHOLE] in
  let speedupWithoutBlackHole := getGameSpeedupFactor effectsToConsider (Some 1) None in
  speedupLoop g effectsToConsider speedupWithoutBlackHole (list_ g) [1].

(** [calculateOfflineTick]; [fuel] bounds the iterations of the search. *)
Definition calculateOfflineTick (fuel : nat) (g : Game)
    (totalRealTime numberOfTicks tolerance : Q) : option (Q * Q) :=
  let speedups := calculateSpeedups g in
  let totalGameTime := calculateGameTimeFromRealTime g totalRealTime speedups in
  if Qeq_bool numberOfTicks 1 then
    Some (totalRealTime, totalGameTime / totalRealTime)
  else
    match binarySearch fuel 0 totalRealTime
            (fun x => calculateGameTimeFromRealTime g x speedups * numberOfTicks
                      / totalGameTime)
            1 tolerance with
    | None => None
    | Some realTickTime =>
        let blackHoleSpeedup :=
          calculateGameTimeFromRealTime g realTickTime speedups / realTickTime in
        Some (realTickTime, blackHoleSpeedup)
    end.

End Speedups.

(** [get areUnlocked]: [BlackHole(1).isUnlocked]. *)
Definition areUnlocked (g : Game) : completion bool :=
  match BlackHole g 1 with
  | None => Throw
  | Some b => Normal (isUnlocked g b)
  end.

Definition arePaused (g : Game) : bool := blackHolePause g.

(** [activePeriods[blackHole.id - 1]].  An index outside the array would
    read [undefined]; it is [0] here, and [periodFor_position] shows that
    the loop of [updatePhases] always reads inside the array. *)
Definition periodFor (activePeriods : list Q) (id : nat) : Q :=
  match id with
  | O => 0
  | S k => nth k activePeriods 0
  end.

(** The [for (const blackHole of this.list)] loop of [updatePhases]: the
    black holes after it, and the events of the calls. *)
Fixpoint updateLoop (showBlackHoles : bool) (g : Game) (bhs : list BlackHoleState)
    (activePeriods : list Q) : list BlackHoleState * list Event :=
  match bhs with
  | [] => ([], [])
  | blackHole :: rest =>
      if negb (isUnlocked g blackHole) then (blackHole :: rest, [])
      else
        let r := updatePhase showBlackHoles blackHole
                   (periodFor activePeriods (bh_id blackHole)) in
        let rs := updateLoop showBlackHoles g rest activePeriods in
        (fst r :: fst rs, snd r ++ snd rs)
  end.

(** [updatePhases(blackHoleDiff)]. *)
Definition updatePhases (showBlackHoles : bool) (g : Game) (blackHoleDiff : Q)
  : completion (Game * list Event) :=
  match areUnlocked g with
  | Throw => Throw
  | Normal unlockedNow =>
      if negb unlockedNow || arePaused g then Normal (g, [])
      else
        let seconds := blackHoleDiff / 1000 in
        let activePeriods := realTimePeriodsWithBlackHoleActive g seconds in
        let r := updateLoop showBlackHoles g (list_ g) activePeriods in
        Normal (mkGame (fst r) (enslavedIsRunning g) (blackHolePause g), snd r)
  end.

(** A notification of [togglePause]. *)
Inductive PauseNotice := BlackHolePaused | BlackHoleUnpaused.

(** [togglePause()]. *)
Definition togglePause (g : Game) : completion (Game * list PauseNotice) :=
  match areUnlocked g with
  | Throw => Throw
  | Normal unlockedNow =>
      if negb unlockedNow then Normal (g, [])
      else
        let paused := negb (blackHolePause g) in
        Normal (mkGame (list_ g) (enslavedIsRunning g) paused,
                [if paused then BlackHolePaused else BlackHoleUnpaused])
  end.

(** [get canBeUnlocked]: [realityMachines.gte(50) && !this.areUnlocked];
    the right operand is only evaluated when the left one holds. *)
Definition canBeUnlocked (p : Player) : completion bool :=
  if geb (realityMachines p) 50 then
    match areUnlocked (world p) with
    | Throw => Throw
    | Normal u => Normal (negb u)
    end
  else Normal false.

(** [unlock()]. *)
Definition unlock (p : Player) : completion (Player * list GameEvent) :=
  match canBeUnlocked p with
  | Throw => Throw
  | Normal false => Normal (p, [])
  | Normal true =>
      match list_ (world p) with
      | [] => Throw
      | first :: rest =>
          let g := mkGame (set_unlocked first true :: rest)
                     (enslavedIsRunning (world p)) (blackHolePause (world p)) in
          Normal (mkPlayer g (realityMachines p - 50), [AchievementUnlock 144])
      end
  end.

End BlackHoles.

(** ** The brute-force stepper of the specification *)

Module Stepper.

(** Whether the oscillator is inside its active window at this instant: a
    charged black hole until its phase reaches [duration], an uncharged one
    once its phase has reached [interval] (the two thresholds [updatePhase]
    tests). *)
Definition activeNow (b : BlackHoleState) : bool :=
  if isCharged b then ltb (get_phase b) (duration b)
  else geb (get_phase b) (interval b).

(** Following the specification's words (simulate the interval in small
    steps and sum the active portions): [n] steps of length [h]; a step
    that starts inside the active window counts [h], any other counts [0];
    the state advances by [updatePhase]. *)
Fixpoint simulate (h : Q) (n : nat) (b : BlackHoleState) : Q :=
  match n with
  | O => 0
  | S n' => (if activeNow b then h else 0) + simulate h n' (fst (updatePhase false b h))
  end.

End Stepper.

(** ** Notions used to state the properties *)

(** The snapshots the specification quantifies over: positive interval and
    duration, and a phase inside the cycle. *)
Definition wellFormed (b : BlackHoleState) : Prop :=
  0 < interval b /\ 0 < duration b /\ 0 <= get_phase b /\ get_phase b < cycleLength b.

(** A well-formed snapshot whose charged phase has not run past the active
    window. *)
Definition settled (b : BlackHoleState) : Prop :=
  wellFormed b /\ (isCharged b = true -> get_phase b <= duration b).

(** What [updatePhase] leaves behind: the phase is below the threshold of
    the current half of the cycle. *)
Definition strictlySettled (b : BlackHoleState) : Prop :=
  0 <= get_phase b /\
  if isCharged b then get_phase b < duration b else get_phase b < interval b.

(** Several calls of [updatePhase] in a row, one per elapsed amount. *)
Definition runUpdates (showBlackHoles : bool) (b : BlackHoleState) (amounts : list Q)
  : BlackHoleState :=
  fold_left (fun s a => fst (updatePhase showBlackHoles s a)) amounts b.

(** The floored remainder, which [%] computes on a non-negative dividend. *)
Definition fmod (x c : Q) : Q := x - c * inject_Z (floor_div x c).


(** Where a snapshot stands, measured from the start of its cooldown. *)
Definition position (b : BlackHoleState) : Q :=
  cycleLength b - timeUntilNextDeactivation b.


(** The phase of [updatePhase] after its first [if], and whether its second
    [if] finds a threshold crossed. *)
Definition foldedPhase (b : BlackHoleState) (a : Q) : Q :=
  if geb (get_phase b + a) (cycleLength b)
  then js_rem (get_phase b + a) (cycleLength b)
  else get_phase b + a.

Definition crossed (b : BlackHoleState) (a : Q) : bool :=
  geb (foldedPhase b a) (if isCharged b then duration b else interval b).



(** The elements [activeLoop] appends, given the last element so far. *)
Fixpoint activeFrom (g : Game) (bhs : list BlackHoleState) (t : Q) : list Q :=
  match bhs with
  | [] => []
  | b :: rest =>
      if negb (isUnlocked g b) then []
      else realTimeWhileActive b t :: activeFrom g rest (realTimeWhileActive b t)
  end.

(** How many black holes the loops of [BlackHoles] visit before their
    [break]. *)
Fixpoint unlockedPrefix (g : Game) (bhs : list BlackHoleState) : nat :=
  match bhs with
  | [] => O
  | b :: rest => if negb (isUnlocked g b) then O else S (unlockedPrefix g rest)
  end.



(** The game time of a list of active periods, read from index [i] of the
    speedups on: each period counts for what the next one leaves of it. *)
Fixpoint weighted (i : nat) (activePeriods speedups : list Q) : Q :=
  match activePeriods with
  | [] => 0
  | x :: tl =>
      match tl with
      | [] => x * nth i speedups 0
      | y :: _ => (x - y) * nth i speedups 0 + weighted (S i) tl speedups
      end
  end.

(** The black holes after the loop of [updatePhases], each advanced by the
    active time of its host. *)
Fixpoint advance (sh : bool) (g : Game) (bhs : list BlackHoleState) (x : Q)
  : list BlackHoleState :=
  match bhs with
  | [] => []
  | b :: rest =>
      if negb (isUnlocked g b) then b :: rest
      else fst (updatePhase sh b x) :: advance sh g rest (realTimeWhileActive b x)
  end.

(** The upgrades the constructor of [BlackHoleState] builds. *)
Definition builtUpgrade (u : BlackHoleUpgradeState) : Prop :=
  exists id : nat,
    u = BlackHoleUpgrade.intervalUpgrade id \/ u = BlackHoleUpgrade.powerUpgrade id
    \/ u = BlackHoleUpgrade.durationUpgrade id.

(** ** Concrete states *)

Module Examples.

Definition blackHole (id : nat) (i d p : Q) (charged : bool) : BlackHoleState :=
  mkBlackHole id i 5 d (mkData true charged p 0 0 0 0).

(** Charged, one unit into an active window of two. *)
Definition running : BlackHoleState := blackHole 1 3 2 1 true.

(** Uncharged at the start of its cooldown. *)
Definition resting : BlackHoleState := blackHole 1 3 2 0 false.

(** A second black hole, uncharged, with a short cycle. *)
Definition second : BlackHoleState := blackHole 2 1 (1 # 2) (1 # 4) false.

(** Charged with a phase past its duration: inside the cycle, but a state
    [updatePhase] never leaves behind. *)
Definition overrun : BlackHoleState := blackHole 1 3 2 4 true.

(** The example of the specification: interval 3600, duration 400. *)
Definition hourly : BlackHoleState := blackHole 1 3600 400 0 false.

Definition game (bhs : list BlackHoleState) : Game := mkGame bhs false false.

(** A game-speed factor: the override when one is given, else five per
    active black hole. *)
Definition speedupFactor (effects : list GameSpeedEffect) (blackHoleOverride : option Q)
    (blackHolesActiveOverride : option nat) : Q :=
  match blackHoleOverride, blackHolesActiveOverride with
  | Some x, _ => x
  | None, Some n => 5 ^ Z.of_nat n
  | None, None => 1
  end.

(** The data of a slot fresh from a new save. *)
Definition freshData : BlackHoleData := mkData false false 0 0 0 0 0.

End Examples.

(** ** Concrete chains *)

Module Scenario.

(** Two unlocked black holes, numbered as the game numbers them. *)
Definition chain : Game := Examples.game [Examples.running; Examples.second].

(** The speedups of [chain] under [Examples.speedupFactor]. *)
Definition speedups : list Q := [1; 5; 25].

(** An uncharged black hole whose phase lies beyond its cycle, as after the
    cycle was shortened. *)
Definition stale : BlackHoleState := Examples.blackHole 1 3 2 7 false.

(** A black hole that is not unlocked yet, alone in its chain. *)
Definition locked : BlackHoleState :=
  mkBlackHole 1 3600 180 10 Examples.freshData.

Definition lockedChain : Game := Examples.game [locked].

(** A player holding 120 reality machines before the first unlock. *)
Definition player : Player := mkPlayer lockedChain 120.

End Scenario.

(** ** The same code on binary64 doubles *)

(** The functions above once more, on the numbers the program computes
    with: [float] is the binary64 format, and [+], [-], [*] and [/] round to
    nearest, ties to even, as JavaScript's do.  [Math.floor] and [%] are
    exact on doubles; they are computed here from the sign, mantissa and
    exponent of their arguments. *)
Module Double.

(** The rational a finite double stands for ([0] for [NaN] and the
    infinities, which [isFinite] tells apart). *)
Definition toQ (x : float) : Q :=
  match Prim2SF x with
  | S754_finite s m e =>
      let z := if s then Zneg m else Zpos m in
      if (0 <=? e)%Z then inject_Z (z * 2 ^ e) else z # (2 ^ Z.to_pos (- e))
  | _ => 0
  end.


(** [Math.floor]: a double is its mantissa times a power of two; with a
    negative exponent the arithmetic shift of the signed mantissa is the
    floor, and with any other the double is an integer already. *)
Definition Math_floor (x : float) : float :=
  match Prim2SF x with
  | S754_finite s m e =>
      if (0 <=? e)%Z then x
      else
        match Z.shiftl (if s then Zneg m else Zpos m) e with
        | Z0 => zero
        | Zpos p => SF2Prim (S754_finite false p 0)
        | Zneg p => SF2Prim (S754_finite true p 0)
        end
  | _ => x
  end.

(** [x % y]: the exact remainder of the truncated division, with the sign
    of the dividend; [NaN] for an infinite dividend or a zero divisor.  Both
    mantissas are brought to the smaller exponent, where the remainder of
    the integers is the mantissa of the result. *)
Definition js_rem (x y : float) : float :=
  match Prim2SF x, Prim2SF y with
  | S754_nan, _ | _, S754_nan | S754_infinity _, _ | _, S754_zero _ => nan
  | S754_zero _, _ => x
  | S754_finite _ _ _, S754_infinity _ => x
  | S754_finite sx mx ex, S754_finite _ my ey =>
      let e := Z.min ex ey in
      match Z.rem (Zpos mx * 2 ^ (ex - e)) (Zpos my * 2 ^ (ey - e)) with
      | Zpos p => SF2Prim (S754_finite sx p e)
      | _ => if sx then neg_zero else zero
      end
  end.

(** [Math.min] and [Math.max]: [NaN] when an argument is, and [-0] below
    [+0]. *)
Definition Math_min (x y : float) : float :=
  if is_nan x || is_nan y then nan
  else if PrimFloat.ltb x y then x
  else if PrimFloat.ltb y x then y
  else if get_sign x then x else y.

Definition Math_max (x y : float) : float :=
  if is_nan x || is_nan y then nan
  else if PrimFloat.ltb x y then y
  else if PrimFloat.ltb y x then x
  else if get_sign x then y else x.

Definition Math_abs (x : float) : float := PrimFloat.abs x.

(** [x >= y] and [x < y]; both are false when an argument is [NaN]. *)
Definition geb (x y : float) : bool := PrimFloat.leb y x.
Definition ltb (x y : float) : bool := PrimFloat.ltb x y.

Definition sum (l : list float) : float := fold_left PrimFloat.add l 0%float.
Definition last (l : list float) : float := List.last l 0%float.

Record BlackHoleData := mkData {
  unlocked : bool;
  active : bool;
  phase : float;
  activations : float;
  intervalUpgrades : nat;
  powerUpgrades : nat;
  durationUpgrades : nat
}.

(** [interval], [power] and [duration] are the doubles the three upgrade
    getters return. *)
Record BlackHoleState := mkBlackHole {
  bh_id : nat;
  interval : float;
  power : float;
  duration : float;
  _data : BlackHoleData
}.

Definition isCharged (b : BlackHoleState) : bool := active (_data b).
Definition get_phase (b : BlackHoleState) : float := phase (_data b).
Definition cycleLength (b : BlackHoleState) : float := (interval b + duration b)%float.

Definition set_phase (b : BlackHoleState) (p : float) : BlackHoleState :=
  let d := _data b in
  mkBlackHole (bh_id b) (interval b) (power b) (duration b)
    (mkData (unlocked d) (active d) p (activations d)
            (intervalUpgrades d) (powerUpgrades d) (durationUpgrades d)).

Definition set_active (b : BlackHoleState) (a : bool) : BlackHoleState :=
  let d := _data b in
  mkBlackHole (bh_id b) (interval b) (power b) (duration b)
    (mkData (unlocked d) a (phase d) (activations d)
            (intervalUpgrades d) (powerUpgrades d) (durationUpgrades d)).

Definition set_activations (b : BlackHoleState) (n : float) : BlackHoleState :=
  let d := _data b in
  mkBlackHole (bh_id b) (interval b) (power b) (duration b)
    (mkData (unlocked d) (active d) (phase d) n
            (intervalUpgrades d) (powerUpgrades d) (durationUpgrades d)).

(** [updatePhase(activePeriod)]: the state after the call. *)
Definition updatePhase (b : BlackHoleState) (activePeriod : float) : BlackHoleState :=
  let b1 := set_phase b (get_phase b + activePeriod)%float in
  let b2 :=
    if geb (get_phase b1) (cycleLength b1) then
      let b' := set_activations b1
                  (activations (_data b1)
                   + Math_floor (get_phase b1 / cycleLength b1))%float in
      set_phase b' (js_rem (get_phase b') (cycleLength b'))
    else b1 in
  if isCharged b2 then
    if geb (get_phase b2) (duration b2) then
      set_active (set_phase b2 (get_phase b2 - duration b2)%float) false
    else b2
  else if geb (get_phase b2) (interval b2) then
    let b3 := set_phase b2 (get_phase b2 - interval b2)%float in
    let b4 := set_activations b3 (activations (_data b3) + 1)%float in
    set_active b4 true
  else b2.

(** [get timeUntilNextDeactivation]. *)
Definition timeUntilNextDeactivation (b : BlackHoleState) : float :=
  if isCharged b then (duration b - get_phase b)%float
  else (cycleLength b - get_phase b)%float.

(** [realTimeWhileActive(time)]. *)
Definition realTimeWhileActive (b : BlackHoleState) (time : float) : float :=
  let nextDeactivation := timeUntilNextDeactivation b in
  let cooldown := interval b in
  let duration := duration b in
  let fullCycle := cycleLength b in
  let currentActivationDuration := Math_min nextDeactivation duration in
  let activeCyclesUntilLastDeactivation :=
    Math_floor ((time - nextDeactivation) / fullCycle)%float in
  let activeTimeUntilLastDeactivation :=
    (duration * activeCyclesUntilLastDeactivation)%float in
  let timeLeftAfterLastDeactivation :=
    js_rem (time - nextDeactivation + fullCycle)%float fullCycle in
  let lastActivationDuration :=
    Math_max (timeLeftAfterLastDeactivation - cooldown)%float 0%float in
  (currentActivationDuration + activeTimeUntilLastDeactivation
   + lastActivationDuration)%float.

Record Game := mkGame {
  list_ : list BlackHoleState;
  enslavedIsRunning : bool;
  blackHolePause : bool
}.

Definition isUnlocked (g : Game) (b : BlackHoleState) : bool :=
  unlocked (_data b) && negb (enslavedIsRunning g).

Module BlackHoles.

Fixpoint activeLoop (g : Game) (bhs : list BlackHoleState) (activePeriods : list float)
  : list float :=
  match bhs with
  | [] => activePeriods
  | blackHole :: rest =>
      if negb (isUnlocked g blackHole) then activePeriods
      else
        let activeTime := realTimeWhileActive blackHole (last activePeriods) in
        activeLoop g rest (activePeriods ++ [activeTime])
  end.

Definition realTimePeriodsWithBlackHoleActive (g : Game) (realTime : float) : list float :=
  activeLoop g (list_ g) [realTime].

Fixpoint differences (activePeriods : list float) : list float :=
  match activePeriods with
  | x :: ((y :: _) as tl) => (x - y)%float :: differences tl
  | _ => []
  end.

Definition realTimePeriodsWithBlackHoleEffective (g : Game) (realTime : float)
  : list float :=
  let activePeriods := realTimePeriodsWithBlackHoleActive g realTime in
  differences activePeriods ++ [last activePeriods].

(** [array.map((period, i) => period * speedups[i])], from index [i] on;
    an index past the end of [speedups] reads [undefined], and the product
    is [NaN]. *)
Fixpoint mapTimes (i : nat) (periods speedups : list float) : list float :=
  match periods with
  | [] => []
  | period :: rest => (period * nth i speedups nan)%float :: mapTimes (S i) rest speedups
  end.

Definition calculateGameTimeFromRealTime (g : Game) (realTime : float)
    (speedups : list float) : float :=
  let effectivePeriods := realTimePeriodsWithBlackHoleEffective g realTime in
  sum (mapTimes 0 effectivePeriods speedups).

(** [binarySearch], run for at most [fuel] iterations; [None] says the
    loop is still running. *)
Fixpoint binarySearch (fuel : nat) (start end_ : float) (evaluationFunction : float -> float)
    (target tolerance : float) : option float :=
  match fuel with
  | O => None
  | S fuel' =>
      let median := ((start + end_) / 2)%float in
      let error := (evaluationFunction median - target)%float in
      if ltb (Math_abs error) tolerance then Some median
      else if ltb error 0
           then binarySearch fuel' median end_ evaluationFunction target tolerance
           else binarySearch fuel' start median evaluationFunction target tolerance
  end.

(** [calculateOfflineTick], for the speedups [calculateSpeedups()] returned. *)
Definition calculateOfflineTick (fuel : nat) (g : Game) (speedups : list float)
    (totalRealTime numberOfTicks tolerance : float) : option (float * float) :=
  let totalGameTime := calculateGameTimeFromRealTime g totalRealTime speedups in
  if PrimFloat.eqb numberOfTicks 1 then
    Some (totalRealTime, (totalGameTime / totalRealTime)%float)
  else
    match binarySearch fuel 0 totalRealTime
            (fun x => (calculateGameTimeFromRealTime g x speedups * numberOfTicks
                       / totalGameTime)%float)
            1 tolerance with
    | None => None
    | Some realTickTime =>
        let blackHoleSpeedup :=
          (calculateGameTimeFromRealTime g realTickTime speedups / realTickTime)%float in
        Some (realTickTime, blackHoleSpeedup)
    end.

End BlackHoles.

(** The elements [activeLoop] appends, given the last element so far. *)
Fixpoint activeFrom (g : Game) (bhs : list BlackHoleState) (t : float) : list float :=
  match bhs with
  | [] => []
  | b :: rest =>
      if negb (isUnlocked g b) then []
      else realTimeWhileActive b t :: activeFrom g rest (realTimeWhileActive b t)
  end.

(** Concrete states, written as in JavaScript. *)
Module Examples.

Definition blackHole (id : nat) (i d p : float) (charged : bool) : BlackHoleState :=
  mkBlackHole id i 5 d (mkData true charged p 0 0 0 0).

(** Charged, one unit into an active window of two. *)
Definition running : BlackHoleState := blackHole 1 3 2 1 true.

(** Uncharged at the start of its cooldown. *)
Definition resting : BlackHoleState := blackHole 1 3 2 0 false.

(** A second black hole, uncharged, with a short cycle. *)
Definition second : BlackHoleState := blackHole 2 1 0.5 0.25 false.

(** Charged with a phase past its duration. *)
Definition overrun : BlackHoleState := blackHole 1 3 2 4 true.

(** The first black hole of the game without upgrades (interval 3600,
    duration 10), charged, four seconds into its active window. *)
Definition first : BlackHoleState :=
  mkBlackHole 1 3600 180 10 (mkData true true 4 0 0 0 0).


Definition game (bhs : list BlackHoleState) : Game := mkGame bhs false false.

End Examples.

End Double.

(** ** Doubles against exact arithmetic *)

(** The snapshot of exact arithmetic a snapshot of doubles stands for. *)
Definition rationalData (d : Double.BlackHoleData) : BlackHoleData :=
  mkData (Double.unlocked d) (Double.active d) (Double.toQ (Double.phase d))
         (Qfloor (Double.toQ (Double.activations d)))
         (Double.intervalUpgrades d) (Double.powerUpgrades d) (Double.durationUpgrades d).

Definition rational (b : Double.BlackHoleState) : BlackHoleState :=
  mkBlackHole (Double.bh_id b) (Double.toQ (Double.interval b))
              (Double.toQ (Double.power b)) (Double.toQ (Double.duration b))
              (rationalData (Double._data b)).







(** The bracket of [binarySearch] after [n] iterations, when none of them
    returned. *)
Fixpoint bracket (n : nat) (start end_ : float) (evaluationFunction : float -> float)
    (target tolerance : float) : option (float * float) :=
  match n with
  | O => Some (start, end_)
  | S n' =>
      let median := ((start + end_) / 2)%float in
      let error := (evaluationFunction median - target)%float in
      if Double.ltb (Double.Math_abs error) tolerance then None
      else if Double.ltb error 0
           then bracket n' median end_ evaluationFunction target tolerance
           else bracket n' start median evaluationFunction target tolerance
  end.

(** * Lemmas *)

(** ** Floor and remainder *)

Lemma floor_div_bounds (x c : Q) :
  0 < c ->
  c * inject_Z (floor_div x c) <= x /\ x < c * (inject_Z (floor_div x c) + 1).
Proof.
  intros Hc. unfold floor_div.
  assert (Hne : ~ c == 0) by lra.
  pose proof (Qfloor_le (x / c)) as Hlo.
  pose proof (Qlt_floor (x / c)) as Hhi.
  rewrite inject_Z_plus in Hhi. change (inject_Z 1) with 1 in Hhi.
  pose proof (Qmult_div_r x c Hne) as Hx.
  set (q := x / c) in *. set (k := inject_Z (Qfloor q)) in *.
  split; nra.
Qed.

Lemma inject_Z_succ_le (m n : Z) : (m < n)%Z -> inject_Z m + 1 <= inject_Z n.
Proof.
  intros H. change 1 with (inject_Z 1). rewrite <- inject_Z_plus.
  rewrite <- Zle_Qle. lia.
Qed.

Lemma floor_div_unique (x c : Q) (m : Z) :
  0 < c -> c * inject_Z m <= x -> x < c * (inject_Z m + 1) -> floor_div x c = m.
Proof.
  intros Hc Hlo Hhi.
  destruct (floor_div_bounds x c Hc) as [Klo Khi].
  set (k := floor_div x c) in *.
  destruct (Z.lt_trichotomy k m) as [Hlt | [Heq | Hgt]]; [ | exact Heq | ]; exfalso.
  - pose proof (inject_Z_succ_le _ _ Hlt). nra.
  - pose proof (inject_Z_succ_le _ _ Hgt). nra.
Qed.


Lemma floor_div_le (x y c : Q) : 0 < c -> x <= y -> (floor_div x c <= floor_div y c)%Z.
Proof.
  intros Hc Hxy. unfold floor_div. apply Qfloor_resp_le.
  apply Qmult_le_compat_r; [ exact Hxy | ]. apply Qlt_le_weak, Qinv_lt_0_compat, Hc.
Qed.


Lemma Qtrunc_nonneg (x : Q) : 0 <= x -> Qtrunc x = Qfloor x.
Proof.
  destruct x as [n p]. unfold Qle, Qtrunc, Qfloor. simpl. intros H.
  apply Z.quot_div_nonneg; lia.
Qed.

Lemma js_rem_nonneg (x c : Q) : 0 <= x -> 0 < c -> js_rem x c == fmod x c.
Proof.
  intros Hx Hc. unfold js_rem, fmod, floor_div.
  rewrite Qtrunc_nonneg; [ reflexivity | ].
  apply Qle_shift_div_l; [ exact Hc | lra ].
Qed.

Lemma fmod_bounds (x c : Q) : 0 < c -> 0 <= fmod x c /\ fmod x c < c.
Proof.
  intros Hc. destruct (floor_div_bounds x c Hc). unfold fmod. split; lra.
Qed.

(** ** Active time along the cycle *)


Section Cumulative.
Variables i d : Q.
Hypothesis Hi : 0 < i.
Hypothesis Hd : 0 < d.






End Cumulative.

(** ** The closed form through [cumulativeActive] *)









(** ** The phase update *)

Lemma geb_true (x y : Q) : geb x y = true -> y <= x.
Proof. unfold geb. apply Qle_bool_iff. Qed.

Lemma geb_false (x y : Q) : geb x y = false -> x < y.
Proof.
  unfold geb. intros H. apply Qnot_le_lt. intros L.
  apply Qle_bool_iff in L. congruence.
Qed.

Lemma ltb_true (x y : Q) : ltb x y = true -> x < y.
Proof. unfold ltb. intros H. apply geb_false. unfold geb. destruct (Qle_bool y x); [discriminate | reflexivity]. Qed.


Lemma fold_cycles (q c : Q) :
  0 <= q -> 0 < c ->
  let q' := if geb q c then js_rem q c else q in
  0 <= q' /\ q' < c /\ exists m : Z, q' == q - c * inject_Z m.
Proof.
  intros Hq Hc. cbv zeta. destruct (geb q c) eqn:E.
  - pose proof (js_rem_nonneg q c Hq Hc) as R.
    destruct (fmod_bounds q c Hc). repeat split; try lra.
    exists (floor_div q c). exact R.
  - apply geb_false in E. repeat split; try assumption.
    exists 0%Z. change (inject_Z 0) with 0. ring.
Qed.

Lemma updatePhase_fields (sh : bool) (b : BlackHoleState) (a : Q) :
  let b' := fst (updatePhase sh b a) in
  interval b' = interval b /\ duration b' = duration b /\
  isCharged b' = xorb (isCharged b) (crossed b a) /\
  get_phase b' =
    (if crossed b a
     then foldedPhase b a - (if isCharged b then duration b else interval b)
     else foldedPhase b a) /\
  toggles (snd (updatePhase sh b a)) = (if crossed b a then 1%nat else 0%nat).
Proof.
  unfold updatePhase, crossed, foldedPhase, get_phase, isCharged, cycleLength.
  cbv zeta.
  cbn [set_phase set_activations set_active _data active phase interval duration].
  destruct (geb (phase (_data b) + a) (interval b + duration b));
    cbn [set_phase set_activations set_active _data active phase interval duration];
    destruct (active (_data b)) eqn:Ech;
    match goal with
    | |- context [geb ?q ?th] => destruct (geb q th)
    end;
    destruct sh;
    cbn [fst snd toggles length filter xorb set_phase
         set_activations set_active _data active phase interval duration];
    rewrite ?Ech; repeat split; reflexivity.
Qed.

Lemma foldedPhase_bounds (b : BlackHoleState) (a : Q) :
  0 < cycleLength b -> 0 <= get_phase b + a ->
  0 <= foldedPhase b a /\ foldedPhase b a < cycleLength b /\
  exists m : Z, foldedPhase b a == get_phase b + a - cycleLength b * inject_Z m.
Proof.
  intros Hc Hq. exact (fold_cycles (get_phase b + a) (cycleLength b) Hq Hc).
Qed.

Lemma updatePhase_result (sh : bool) (b : BlackHoleState) (a : Q) :
  0 < interval b -> 0 < duration b -> 0 <= get_phase b + a ->
  let b' := fst (updatePhase sh b a) in
  interval b' = interval b /\ duration b' = duration b /\
  strictlySettled b' /\
  exists m : Z, position b' == position b + a - cycleLength b * inject_Z m.
Proof.
  intros Hi Hd Hq. cbv zeta.
  assert (Hc : 0 < cycleLength b) by (unfold cycleLength; lra).
  destruct (foldedPhase_bounds b a Hc Hq) as (F0 & F1 & m & Fm).
  destruct (updatePhase_fields sh b a) as (Ei & Ed & Ech & Eph & _).
  split; [ exact Ei | split; [ exact Ed | ] ].
  unfold strictlySettled, position, timeUntilNextDeactivation, cycleLength in *.
  rewrite Ech, Eph, Ei, Ed. unfold crossed in *.
  set (q := foldedPhase b a) in *.
  destruct (isCharged b);
    match goal with
    | |- context [geb ?x ?th] => destruct (geb x th) eqn:Eth
    end;
    [ apply geb_true in Eth | apply geb_false in Eth
    | apply geb_true in Eth | apply geb_false in Eth ];
    cbn [xorb negb]; (split; [ lra | ]).
  - exists (m + 1)%Z. rewrite inject_Z_plus. change (inject_Z 1) with 1. lra.
  - exists m. lra.
  - exists m. lra.
  - exists m. lra.
Qed.

(** ** Steps that divide the cycle *)









(** ** The stepper against the closed form *)







Lemma strictlySettled_settled (b : BlackHoleState) :
  0 < interval b -> 0 < duration b -> strictlySettled b -> settled b.
Proof.
  intros Hi Hd [Hp Hs]. unfold settled, wellFormed, cycleLength.
  destruct (isCharged b); repeat split; try assumption; try lra.
Qed.








(** ** Sums, differences and the loops of the chain *)

Lemma fold_left_Qplus (l : list Q) (a : Q) :
  fold_left Qplus l a == a + fold_left Qplus l 0.
Proof.
  revert a. induction l as [ | x l IH]; intros a; cbn [fold_left].
  - ring.
  - rewrite (IH (a + x)), (IH (0 + x)). ring.
Qed.

Lemma sum_cons (x : Q) (l : list Q) : sum (x :: l) == x + sum l.
Proof.
  unfold sum. cbn [fold_left]. rewrite fold_left_Qplus. ring.
Qed.

Lemma last_cons (x y : Q) (l : list Q) : last (x :: y :: l) = last (y :: l).
Proof. reflexivity. Qed.

Lemma last_app_one (l : list Q) (a : Q) : last (l ++ [a]) = a.
Proof. unfold last. apply last_last. Qed.

Lemma differences_cons (x y : Q) (l : list Q) :
  BlackHoles.differences (x :: y :: l) = (x - y) :: BlackHoles.differences (y :: l).
Proof. reflexivity. Qed.

Lemma activeLoop_activeFrom (g : Game) (bhs : list BlackHoleState) (acc : list Q) :
  BlackHoles.activeLoop g bhs acc = acc ++ activeFrom g bhs (last acc).
Proof.
  revert acc. induction bhs as [ | b rest IH]; intros acc;
    cbn [BlackHoles.activeLoop activeFrom].
  - symmetry. apply app_nil_r.
  - destruct (negb (isUnlocked g b)).
    + symmetry. apply app_nil_r.
    + rewrite IH, last_app_one, <- app_assoc. reflexivity.
Qed.

Lemma realTimePeriodsWithBlackHoleActive_cons (g : Game) (t : Q) :
  BlackHoles.realTimePeriodsWithBlackHoleActive g t = t :: activeFrom g (list_ g) t.
Proof.
  unfold BlackHoles.realTimePeriodsWithBlackHoleActive.
  rewrite activeLoop_activeFrom. reflexivity.
Qed.

Lemma activeFrom_length (g : Game) (bhs : list BlackHoleState) (t : Q) :
  length (activeFrom g bhs t) = unlockedPrefix g bhs.
Proof.
  revert t. induction bhs as [ | b rest IH]; intros t; cbn [activeFrom unlockedPrefix].
  - reflexivity.
  - destruct (negb (isUnlocked g b)); [ reflexivity | ]. cbn [length]. now rewrite IH.
Qed.

Lemma differences_length (x : Q) (l : list Q) :
  length (BlackHoles.differences (x :: l) ++ [last (x :: l)]) = S (length l).
Proof.
  revert x. induction l as [ | y l IH]; intros x.
  - reflexivity.
  - rewrite last_cons, differences_cons, <- app_comm_cons. cbn [length]. now rewrite IH.
Qed.

Lemma effective_length (g : Game) (t : Q) :
  length (BlackHoles.realTimePeriodsWithBlackHoleEffective g t)
  = S (unlockedPrefix g (list_ g)).
Proof.
  unfold BlackHoles.realTimePeriodsWithBlackHoleEffective.
  rewrite realTimePeriodsWithBlackHoleActive_cons, differences_length.
  now rewrite activeFrom_length.
Qed.

Lemma speedupLoop_length (f : list GameSpeedEffect -> option Q -> option nat -> Q)
    (g : Game) (effects : list GameSpeedEffect) (w : Q)
    (bhs : list BlackHoleState) (acc : list Q) :
  length (BlackHoles.speedupLoop f g effects w bhs acc)
  = (length acc + unlockedPrefix g bhs)%nat.
Proof.
  revert acc. induction bhs as [ | b rest IH]; intros acc;
    cbn [BlackHoles.speedupLoop unlockedPrefix].
  - lia.
  - destruct (negb (isUnlocked g b)); [ lia | ].
    rewrite IH, length_app. cbn [length]. lia.
Qed.

(** Every index [calculateGameTimeFromRealTime] reads in the speedups
    computed by [calculateSpeedups] is in range. *)
Lemma speedups_length (f : list GameSpeedEffect -> option Q -> option nat -> Q)
    (g : Game) (t : Q) :
  length (BlackHoles.calculateSpeedups f g)
  = length (BlackHoles.realTimePeriodsWithBlackHoleEffective g t).
Proof.
  unfold BlackHoles.calculateSpeedups.
  rewrite speedupLoop_length, effective_length. reflexivity.
Qed.

(** ** The binary search *)

Lemma binarySearch_sound (f : Q -> Q) (target tol : Q) (fuel : nat) :
  forall start end_ m,
    BlackHoles.binarySearch fuel start end_ f target tol = Some m ->
    Qabs (f m - target) < tol.
Proof.
  induction fuel as [ | fuel IH]; intros start end_ m; cbn [BlackHoles.binarySearch].
  - discriminate.
  - destruct (ltb (Qabs (f ((start + end_) / 2) - target)) tol) eqn:Hit.
    + intros E. injection E as <-. apply ltb_true. exact Hit.
    + destruct (ltb (f ((start + end_) / 2) - target) 0); apply IH.
Qed.

Lemma binarySearch_forever (f : Q -> Q) (target tol : Q) (fuel : nat) :
  tol <= 0 ->
  forall start end_, BlackHoles.binarySearch fuel start end_ f target tol = None.
Proof.
  intros Htol. induction fuel as [ | fuel IH]; intros start end_;
    cbn [BlackHoles.binarySearch].
  - reflexivity.
  - destruct (ltb (Qabs (f ((start + end_) / 2) - target)) tol) eqn:Hit.
    + apply ltb_true in Hit.
      pose proof (Qabs_nonneg (f ((start + end_) / 2) - target)). lra.
    + destruct (ltb (f ((start + end_) / 2) - target) 0); apply IH.
Qed.

Lemma Qeq_bool_gt_one (n : Q) : 1 < n -> Qeq_bool n 1 = false.
Proof.
  intros H. destruct (Qeq_bool n 1) eqn:E; [ | reflexivity ].
  apply Qeq_bool_eq in E. lra.
Qed.

(** ** The phase update, repeated *)

Lemma updatePhase_wellFormed (sh : bool) (b : BlackHoleState) (a : Q) :
  wellFormed b -> 0 <= a -> wellFormed (fst (updatePhase sh b a)).
Proof.
  intros (Hi & Hd & Hp & Hc) Ha.
  assert (Hq : 0 <= get_phase b + a) by lra.
  destruct (updatePhase_result sh b a Hi Hd Hq) as (Ei & Ed & St & _).
  apply strictlySettled_settled; [ rewrite Ei | rewrite Ed | ]; assumption.
Qed.

Lemma runUpdates_wellFormed (sh : bool) (amounts : list Q) :
  Forall (fun a => 0 <= a) amounts ->
  forall (n : nat) (b : BlackHoleState),
    wellFormed b -> wellFormed (runUpdates sh b (firstn n amounts)).
Proof.
  induction 1 as [ | a rest Ha _ IH]; intros n b W.
  - rewrite firstn_nil. exact W.
  - destruct n as [ | n]; [ exact W | ].
    cbn [firstn]. unfold runUpdates. cbn [fold_left].
    apply (IH n). apply updatePhase_wellFormed; assumption.
Qed.

(** ** The upgrade values *)

Lemma intervalValue_pos (id amount : nat) : 0 < Upgrades.intervalValue id amount.
Proof.
  unfold Upgrades.intervalValue.
  assert (P10 : 0 < 10 ^ Z.of_nat id) by (apply Qpower_0_lt; reflexivity).
  assert (P8 : 0 < (8 # 10) ^ Z.of_nat amount) by (apply Qpower_0_lt; reflexivity).
  apply Qmult_lt_0_compat; [ | exact P8 ].
  apply Qlt_shift_div_l; [ exact P10 | ]. lra.
Qed.

Lemma durationValue_pos (id amount : nat) :
  (id < 3)%nat -> 0 < Upgrades.durationValue id amount.
Proof.
  intros Hid. unfold Upgrades.durationValue.
  assert (P13 : 0 < (13 # 10) ^ Z.of_nat amount) by (apply Qpower_0_lt; reflexivity).
  apply Qmult_lt_0_compat; [ | exact P13 ].
  assert (B : inject_Z (Z.of_nat id) <= 2).
  { change 2 with (inject_Z 2). rewrite <- Zle_Qle. lia. }
  lra.
Qed.

(** ** The code on doubles against exact arithmetic *)

(** [Math.floor], [%], [Math.max], [Math.min] and [+] on some doubles, as
    JavaScript computes them. *)
Example double_primitives :
  Double.Math_floor (-0.5) = (-1)%float /\ Double.Math_floor 2.5 = 2%float
  /\ Double.Math_floor (-3) = (-3)%float /\ Double.Math_floor 0.5 = 0%float
  /\ Double.js_rem 5.5 2 = 1.5%float /\ Double.js_rem (-7.5) 2 = (-1.5)%float
  /\ Double.js_rem 0.3 0.1 = 0.09999999999999998%float
  /\ Double.js_rem (-6) 3 = (-0)%float
  /\ Double.Math_max (-0) 0 = 0%float /\ Double.Math_min 0 (-0) = (-0)%float
  /\ (0.1 + 0.2)%float = 0.30000000000000004%float
  /\ Double.toQ 0.75 == 3 # 4.
Proof. repeat split; vm_compute; reflexivity. Qed.






Lemma double_last_app_one (l : list float) (a : float) : Double.last (l ++ [a]) = a.
Proof. unfold Double.last. apply last_last. Qed.

Lemma double_activeLoop_activeFrom (g : Double.Game) (bhs : list Double.BlackHoleState)
    (acc : list float) :
  Double.BlackHoles.activeLoop g bhs acc = acc ++ Double.activeFrom g bhs (Double.last acc).
Proof.
  revert acc. induction bhs as [ | b rest IH]; intros acc;
    cbn [Double.BlackHoles.activeLoop Double.activeFrom].
  - symmetry. apply app_nil_r.
  - destruct (negb (Double.isUnlocked g b)).
    + symmetry. apply app_nil_r.
    + rewrite IH, double_last_app_one, <- app_assoc. reflexivity.
Qed.

Lemma double_active_cons (g : Double.Game) (t : float) :
  Double.BlackHoles.realTimePeriodsWithBlackHoleActive g t
  = t :: Double.activeFrom g (Double.list_ g) t.
Proof.
  unfold Double.BlackHoles.realTimePeriodsWithBlackHoleActive.
  rewrite double_activeLoop_activeFrom. reflexivity.
Qed.

Lemma double_differences_cons (x y : float) (l : list float) :
  Double.BlackHoles.differences (x :: y :: l)
  = (x - y)%float :: Double.BlackHoles.differences (y :: l).
Proof. reflexivity. Qed.

Lemma double_last_cons (x y : float) (l : list float) :
  Double.last (x :: y :: l) = Double.last (y :: l).
Proof. reflexivity. Qed.




(** * The properties of the specification *)

(** ** Active time of one black hole *)





(** The same on steps of one half, run: fourteen steps from a charged
    phase 1 with interval 3 and duration 2 are active for 3, and so says
    the closed form on doubles. *)
Example closed_form_half_steps :
  Double.realTimeWhileActive Double.Examples.running 7 = 3%float
  /\ realTimeWhileActive Examples.running (inject_Z (Z.of_nat 14) * (1 # 2)) == 3
  /\ Stepper.simulate (1 # 2) 14 Examples.running == 3.
Proof. split; [ | split ]; reflexivity. Qed.


(** C4.  Monotonicity fails on the code.  The first black hole of the game
    without upgrades (interval 3600, duration 10), charged with phase 4, is
    a snapshot [updatePhase] leaves behind, and in exact arithmetic its
    closed form is monotone; on doubles [realTimeWhileActive] returns 0 at
    t = 0 and -4 at t = 5.9999999999999991, where exact arithmetic gives t
    itself.  There [Math.floor ((time - nextDeactivation) / fullCycle)] is
    -1, while [time - nextDeactivation + fullCycle] rounds to [fullCycle]
    and its remainder is 0 instead of nearly a whole cycle: the two disagree
    by one cycle and the result is short of one duration.  The same happens
    with interval 3 and duration 2: 2.9999999999999982, then 1, then 3. *)
Theorem realTimeWhileActive_not_monotone :
  settled (rational Double.Examples.first)
  /\ 0 <= Double.toQ 0 /\ Double.toQ 0 <= Double.toQ 5.9999999999999991
  /\ Double.realTimeWhileActive Double.Examples.first 0 = 0%float
  /\ Double.realTimeWhileActive Double.Examples.first 5.9999999999999991 = (-4)%float
  /\ Double.ltb (Double.realTimeWhileActive Double.Examples.first 5.9999999999999991)
                (Double.realTimeWhileActive Double.Examples.first 0) = true
  /\ realTimeWhileActive (rational Double.Examples.first) (Double.toQ 5.9999999999999991)
     == Double.toQ 5.9999999999999991
  /\ Double.Math_floor ((5.9999999999999991 - 6) / 3610) = (-1)%float
  /\ Double.js_rem (5.9999999999999991 - 6 + 3610) 3610 = 0%float
  /\ Double.realTimeWhileActive Double.Examples.running 5.9999999999999982
     = 2.9999999999999982%float
  /\ Double.realTimeWhileActive Double.Examples.running 5.9999999999999991 = 1%float
  /\ Double.realTimeWhileActive Double.Examples.running 6 = 3%float.
Proof.
  split; [ repeat split; try (vm_compute; reflexivity); intros; vm_compute; discriminate | ].
  split; [ vm_compute; discriminate | ].
  split; [ vm_compute; discriminate | ].
  repeat split; vm_compute; reflexivity.
Qed.

(** ** The phase update *)

(** C2.  Starting from interval > 0, duration > 0 and
    0 <= phase < interval + duration, after every call in any sequence of
    [updatePhase] calls with non-negative amounts, however large, the
    phase again lies in [0, interval + duration). *)
Theorem updatePhase_phase_invariant (sh : bool) (b : BlackHoleState)
    (amounts : list Q) (n : nat) :
  0 < interval b -> 0 < duration b ->
  0 <= get_phase b -> get_phase b < interval b + duration b ->
  Forall (fun a => 0 <= a) amounts ->
  let b' := runUpdates sh b (firstn n amounts) in
  0 <= get_phase b' /\ get_phase b' < interval b' + duration b'.
Proof.
  intros Hi Hd Hp Hc Hall.
  assert (W : wellFormed b) by (repeat split; assumption).
  destruct (runUpdates_wellFormed sh amounts Hall n b W) as (_ & _ & P0 & P1).
  split; assumption.
Qed.

Lemma updatePhase_phase_invariant_witness :
  0 <= get_phase (runUpdates true Examples.resting (firstn 2 [1000000 # 3; 0; 7]))
  /\ get_phase (runUpdates true Examples.resting (firstn 2 [1000000 # 3; 0; 7])) < 3 + 2.
Proof.
  apply (updatePhase_phase_invariant true Examples.resting [1000000 # 3; 0; 7] 2).
  - reflexivity.
  - reflexivity.
  - discriminate.
  - reflexivity.
  - repeat constructor; discriminate.
Defined.

(** C7 (as amended).  A call of [updatePhase] with a non-negative amount
    flips the charged flag at most once: once when the phase, with whole
    cycles folded away, has reached the threshold of the current half of
    the cycle (duration when charged, interval when not), and not at all
    otherwise, however many whole cycles were folded away. *)
Theorem updatePhase_toggles (sh : bool) (b : BlackHoleState) (a : Q) :
  0 <= a ->
  (toggles (snd (updatePhase sh b a)) <= 1)%nat
  /\ toggles (snd (updatePhase sh b a)) = (if crossed b a then 1%nat else 0%nat)
  /\ isCharged (fst (updatePhase sh b a)) = xorb (isCharged b) (crossed b a).
Proof.
  intros _. destruct (updatePhase_fields sh b a) as (_ & _ & Ech & _ & Et).
  rewrite Et. repeat split; [ destruct (crossed b a); lia | exact Ech ].
Qed.

Lemma updatePhase_toggles_witness :
  (toggles (snd (updatePhase true Examples.running (21 # 2))) <= 1)%nat
  /\ toggles (snd (updatePhase true Examples.running (21 # 2)))
     = (if crossed Examples.running (21 # 2) then 1%nat else 0%nat)
  /\ isCharged (fst (updatePhase true Examples.running (21 # 2)))
     = xorb (isCharged Examples.running) (crossed Examples.running (21 # 2)).
Proof.
  apply (updatePhase_toggles true Examples.running (21 # 2)). discriminate.
Defined.

(** C7 as stated fails on the example of the specification itself: from
    an uncharged phase 0 with interval 3600 and duration 400, a call with
    4000 folds one whole cycle and flips nothing. *)
Lemma updatePhase_no_toggle :
  0 <= 4000 /\ toggles (snd (updatePhase true Examples.hourly 4000)) = 0%nat
  /\ toggles (snd (updatePhase true Examples.hourly 4000)) <> 1%nat.
Proof.
  split; [ discriminate | ]. split; [ reflexivity | ]. vm_compute. discriminate.
Qed.

(** C9 (as amended).  The constructor checks nothing and never fails.  For
    the three black holes the game builds (constructor argument 0, 1 or 2)
    the interval and the duration are positive whatever the upgrade
    counts, so the cycle length is positive. *)
Theorem constructor_cycle_positive (id : nat) (d : BlackHoleData) :
  exists b : BlackHoleState,
    constructor id d = Normal b
    /\ ((id < 3)%nat -> 0 < interval b /\ 0 < duration b /\ 0 < cycleLength b).
Proof.
  eexists. split; [ reflexivity | ]. intros Hid.
  unfold cycleLength. cbn [interval duration].
  pose proof (intervalValue_pos id (intervalUpgrades d)).
  pose proof (durationValue_pos id (durationUpgrades d) Hid).
  repeat split; lra.
Qed.

Lemma constructor_cycle_positive_witness :
  exists b : BlackHoleState,
    constructor 2 Examples.freshData = Normal b
    /\ 0 < interval b /\ 0 < duration b /\ 0 < cycleLength b.
Proof.
  destruct (constructor_cycle_positive 2 Examples.freshData) as (b & E & P).
  exists b. split; [ exact E | ]. apply P. repeat constructor.
Defined.

(** C9 as stated fails: built from the argument 4, a black hole has
    duration -2 and cycle length -41/25, and the constructor returns it. *)
Lemma constructor_accepts_negative_cycle :
  exists b : BlackHoleState,
    constructor 4 Examples.freshData = Normal b
    /\ cycleLength b <= 0 /\ constructor 4 Examples.freshData <> Throw.
Proof.
  eexists. split; [ reflexivity | ]. split; [ vm_compute; discriminate | discriminate ].
Qed.

(** ** The chain *)







(** ** Offline ticks *)

(** C3.  When [calculateOfflineTick T N tol] with N > 1 returns a pair,
    its first component x satisfies
    |calculateGameTimeFromRealTime(x) * N / calculateGameTimeFromRealTime(T) - 1| < tol
    and its second component is calculateGameTimeFromRealTime(x) / x. *)
Theorem calculateOfflineTick_within_tolerance
    (getGameSpeedupFactor : list GameSpeedEffect -> option Q -> option nat -> Q)
    (fuel : nat) (g : Game) (T N tol x rate : Q) :
  1 < N ->
  BlackHoles.calculateOfflineTick getGameSpeedupFactor fuel g T N tol = Some (x, rate) ->
  let speedups := BlackHoles.calculateSpeedups getGameSpeedupFactor g in
  Qabs (BlackHoles.calculateGameTimeFromRealTime g x speedups * N
        / BlackHoles.calculateGameTimeFromRealTime g T speedups - 1) < tol
  /\ rate = BlackHoles.calculateGameTimeFromRealTime g x speedups / x.
Proof.
  intros HN. unfold BlackHoles.calculateOfflineTick.
  rewrite (Qeq_bool_gt_one N HN).
  destruct (BlackHoles.binarySearch _ _ _ _ _ _) as [m | ] eqn:E; [ | discriminate ].
  intros R. injection R as <- <-. cbv zeta. split; [ | reflexivity ].
  exact (binarySearch_sound _ _ _ _ _ _ _ E).
Qed.

Lemma calculateOfflineTick_within_tolerance_witness :
  exists x rate : Q,
    BlackHoles.calculateOfflineTick Examples.speedupFactor 5
      (Examples.game [Examples.resting]) 20 4 (1 # 10) = Some (x, rate)
    /\ x == 5 /\ rate == 13 # 5
    /\ Qabs (BlackHoles.calculateGameTimeFromRealTime (Examples.game [Examples.resting]) x
               (BlackHoles.calculateSpeedups Examples.speedupFactor
                  (Examples.game [Examples.resting])) * 4
             / BlackHoles.calculateGameTimeFromRealTime (Examples.game [Examples.resting]) 20
                 (BlackHoles.calculateSpeedups Examples.speedupFactor
                    (Examples.game [Examples.resting])) - 1) < 1 # 10.
Proof.
  assert (E : { p : Q * Q |
                BlackHoles.calculateOfflineTick Examples.speedupFactor 5
                  (Examples.game [Examples.resting]) 20 4 (1 # 10) = Some p }).
  { eexists. vm_compute. reflexivity. }
  destruct E as [[x rate] E]. exists x, rate.
  split; [ exact E | ].
  assert (HN : 1 < 4) by reflexivity.
  pose proof (calculateOfflineTick_within_tolerance Examples.speedupFactor 5
                (Examples.game [Examples.resting]) 20 4 (1 # 10) x rate HN E) as [Tol _].
  assert (V : Some (x, rate)
              = BlackHoles.calculateOfflineTick Examples.speedupFactor 5
                  (Examples.game [Examples.resting]) 20 4 (1 # 10))
    by (symmetry; exact E).
  vm_compute in V. injection V as -> ->.
  split; [ reflexivity | ]. split; [ reflexivity | ]. exact Tol.
Defined.

(** C6.  For every total real time T > 0 and every tolerance,
    [calculateOfflineTick T 1 tol] returns exactly the pair
    (T, calculateGameTimeFromRealTime(T) / T), and does so whatever the
    number [fuel] of iterations the binary search is allowed, none
    included: the search is not run. *)
Theorem calculateOfflineTick_single_tick
    (getGameSpeedupFactor : list GameSpeedEffect -> option Q -> option nat -> Q)
    (fuel : nat) (g : Game) (T tol : Q) :
  0 < T ->
  BlackHoles.calculateOfflineTick getGameSpeedupFactor fuel g T 1 tol
  = Some (T, BlackHoles.calculateGameTimeFromRealTime g T
               (BlackHoles.calculateSpeedups getGameSpeedupFactor g) / T).
Proof.
  intros _. reflexivity.
Qed.

Lemma calculateOfflineTick_single_tick_witness :
  BlackHoles.calculateOfflineTick Examples.speedupFactor 0
    (Examples.game [Examples.resting]) 20 1 (1 # 10)
  = Some (20, BlackHoles.calculateGameTimeFromRealTime (Examples.game [Examples.resting]) 20
                (BlackHoles.calculateSpeedups Examples.speedupFactor
                   (Examples.game [Examples.resting])) / 20).
Proof.
  apply (calculateOfflineTick_single_tick Examples.speedupFactor 0
           (Examples.game [Examples.resting]) 20 (1 # 10)).
  reflexivity.
Defined.

(** C8 (as amended).  The binary search has no iteration ceiling and no
    failure signal: whatever the number of iterations it is run for, it has
    either returned a midpoint whose evaluation is within the tolerance of
    the target, or it is still iterating; with a tolerance that is zero or
    negative it iterates forever. *)
Theorem binarySearch_no_ceiling (fuel : nat) (start end_ : Q) (f : Q -> Q)
    (target tol : Q) :
  (forall m : Q,
      BlackHoles.binarySearch fuel start end_ f target tol = Some m ->
      Qabs (f m - target) < tol)
  /\ (tol <= 0 -> BlackHoles.binarySearch fuel start end_ f target tol = None).
Proof.
  split.
  - intros m E. exact (binarySearch_sound f target tol fuel start end_ m E).
  - intros Htol. apply binarySearch_forever. exact Htol.
Qed.

Lemma binarySearch_no_ceiling_witness :
  (exists m : Q,
      BlackHoles.binarySearch 3 0 4 (fun x => x * x) 2 (1 # 2) = Some m
      /\ m == 3 # 2 /\ Qabs (m * m - 2) < 1 # 2)
  /\ BlackHoles.binarySearch 1000 0 4 (fun x => x * x) 2 0 = None.
Proof.
  split.
  - assert (E : { m : Q |
                  BlackHoles.binarySearch 3 0 4 (fun x => x * x) 2 (1 # 2) = Some m }).
    { eexists. vm_compute. reflexivity. }
    destruct E as [m E]. exists m. split; [ exact E | ].
    pose proof (proj1 (binarySearch_no_ceiling 3 0 4 (fun x => x * x) 2 (1 # 2)) m E) as Tol.
    assert (V : Some m = BlackHoles.binarySearch 3 0 4 (fun x => x * x) 2 (1 # 2))
      by (symmetry; exact E).
    vm_compute in V. injection V as ->.
    split; [ reflexivity | exact Tol ].
  - apply (proj2 (binarySearch_no_ceiling 1000 0 4 (fun x => x * x) 2 0)).
    discriminate.
Defined.

(** C8 as stated fails: with tolerance 0 there is no number of iterations
    after which [calculateOfflineTick] has returned or failed; the loop is
    still running after any number of them. *)
Lemma calculateOfflineTick_never_stops :
  ~ exists bound : nat,
      BlackHoles.calculateOfflineTick Examples.speedupFactor bound
        (Examples.game [Examples.resting]) 20 4 0 <> None.
Proof.
  intros [bound H]. apply H. unfold BlackHoles.calculateOfflineTick.
  change (Qeq_bool 4 1) with false. cbv iota.
  rewrite binarySearch_forever; [ reflexivity | discriminate ].
Qed.

(** * Further properties of the code *)

(** ** More on the phase update *)

Lemma updatePhase_frame (sh : bool) (b : BlackHoleState) (a : Q) :
  let b' := fst (updatePhase sh b a) in
  bh_id b' = bh_id b /\ interval b' = interval b /\ power b' = power b
  /\ duration b' = duration b /\ unlocked (_data b') = unlocked (_data b)
  /\ intervalUpgrades (_data b') = intervalUpgrades (_data b)
  /\ powerUpgrades (_data b') = powerUpgrades (_data b)
  /\ durationUpgrades (_data b') = durationUpgrades (_data b).
Proof.
  unfold updatePhase, get_phase, isCharged, cycleLength.
  cbv zeta.
  cbn [set_phase set_activations set_active _data active phase interval duration].
  destruct (geb (phase (_data b) + a) (interval b + duration b));
    cbn [set_phase set_activations set_active _data active phase interval duration];
    destruct (active (_data b));
    match goal with
    | |- context [geb ?q ?th] => destruct (geb q th)
    end;
    cbn [fst set_phase set_activations set_active _data active phase interval duration
         bh_id power unlocked intervalUpgrades powerUpgrades durationUpgrades];
    repeat split; reflexivity.
Qed.

Lemma updatePhase_activations_raw (sh : bool) (b : BlackHoleState) (a : Q) :
  activations (_data (fst (updatePhase sh b a)))
  = (activations (_data b)
     + (if geb (get_phase b + a) (cycleLength b)
        then floor_div (get_phase b + a) (cycleLength b) else 0)
     + (if isCharged b then 0 else if crossed b a then 1 else 0))%Z.
Proof.
  unfold updatePhase, crossed, foldedPhase, get_phase, isCharged, cycleLength.
  cbv zeta.
  cbn [set_phase set_activations set_active _data active phase interval duration activations].
  destruct (geb (phase (_data b) + a) (interval b + duration b));
    cbn [set_phase set_activations set_active _data active phase interval duration activations];
    destruct (active (_data b)) eqn:Ech;
    match goal with
    | |- context [geb ?q ?th] => destruct (geb q th)
    end;
    cbn [fst set_phase set_activations set_active _data active phase interval duration
         activations];
    lia.
Qed.

Lemma floor_div_small (x c : Q) : 0 <= x -> x < c -> floor_div x c = 0%Z.
Proof.
  intros H0 H1. apply floor_div_unique; change (inject_Z 0) with 0; lra.
Qed.

Lemma updatePhase_activations_le (sh : bool) (b : BlackHoleState) (a : Q) :
  0 < interval b -> 0 < duration b -> 0 <= get_phase b + a ->
  (activations (_data b) <= activations (_data (fst (updatePhase sh b a))))%Z.
Proof.
  intros Hi Hd Hq. rewrite updatePhase_activations_raw.
  assert (Hc : 0 < cycleLength b) by (unfold cycleLength; lra).
  assert (F : (0 <= if geb (get_phase b + a) (cycleLength b)
                    then floor_div (get_phase b + a) (cycleLength b) else 0)%Z).
  { destruct (geb (get_phase b + a) (cycleLength b)); [ | lia ].
    rewrite <- (floor_div_small 0 (cycleLength b)) by lra.
    apply floor_div_le; assumption. }
  destruct (isCharged b); [ lia | ]. destruct (crossed b a); lia.
Qed.

(** X1.  From any phase that is not negative, even one beyond the cycle,
    a call of [updatePhase] with a non-negative amount leaves a phase
    inside the cycle, 0 <= phase < interval + duration.  The call never
    lowers [activations] and changes nothing else: id, interval, power,
    duration, the unlocked flag and the upgrade counts stay. *)
Theorem updatePhase_stays_in_cycle (sh : bool) (b : BlackHoleState) (a : Q) :
  0 < interval b -> 0 < duration b -> 0 <= get_phase b -> 0 <= a ->
  let b' := fst (updatePhase sh b a) in
  0 <= get_phase b' /\ get_phase b' < cycleLength b'
  /\ (activations (_data b) <= activations (_data b'))%Z
  /\ bh_id b' = bh_id b /\ interval b' = interval b /\ power b' = power b
  /\ duration b' = duration b /\ unlocked (_data b') = unlocked (_data b)
  /\ intervalUpgrades (_data b') = intervalUpgrades (_data b)
  /\ powerUpgrades (_data b') = powerUpgrades (_data b)
  /\ durationUpgrades (_data b') = durationUpgrades (_data b).
Proof.
  intros Hi Hd Hp Ha. cbv zeta.
  assert (Hq : 0 <= get_phase b + a) by lra.
  destruct (updatePhase_result sh b a Hi Hd Hq) as (Ei & Ed & [S0 S1] & _).
  split; [ exact S0 | ].
  split.
  { unfold cycleLength. rewrite <- Ei in Hi. rewrite <- Ed in Hd.
    destruct (isCharged (fst (updatePhase sh b a))); lra. }
  split; [ apply updatePhase_activations_le; assumption | ].
  exact (updatePhase_frame sh b a).
Qed.

Lemma updatePhase_stays_in_cycle_witness :
  0 <= get_phase (fst (updatePhase true Scenario.stale (1 # 2)))
  /\ get_phase (fst (updatePhase true Scenario.stale (1 # 2))) == 5 # 2
  /\ isCharged (fst (updatePhase true Scenario.stale (1 # 2))) = false.
Proof.
  assert (Hi : 0 < interval Scenario.stale) by reflexivity.
  assert (Hd : 0 < duration Scenario.stale) by reflexivity.
  assert (Hp : 0 <= get_phase Scenario.stale) by discriminate.
  assert (Ha : 0 <= 1 # 2) by discriminate.
  split; [ exact (proj1 (updatePhase_stays_in_cycle true Scenario.stale (1 # 2) Hi Hd Hp Ha)) | ].
  split; reflexivity.
Defined.

(** On doubles the phase a call leaves can sit on the threshold of its half
    of the cycle: with interval 0.7 and duration 0.3, a charged black hole
    at phase 0 updated by 0.99999999999999989 ends uncharged with a phase
    that is the interval itself, since the subtraction of the duration
    rounds. *)
Example updatePhase_double_on_threshold :
  let b := Double.updatePhase (Double.Examples.blackHole 1 0.7 0.3 0 true)
                              0.99999999999999989 in
  Double.isCharged b = false /\ Double.get_phase b = Double.interval b.
Proof. split; vm_compute; reflexivity. Qed.

(** ** More on the closed form *)









(** ** Game time as a weighted sum *)

Lemma weighted_cons2 (i : nat) (x y : Q) (l sp : list Q) :
  weighted i (x :: y :: l) sp = (x - y) * nth i sp 0 + weighted (S i) (y :: l) sp.
Proof. reflexivity. Qed.

Lemma weighted_mapTimes (i : nat) (x : Q) (l sp : list Q) :
  sum (BlackHoles.mapTimes i (BlackHoles.differences (x :: l) ++ [last (x :: l)]) sp)
  == weighted i (x :: l) sp.
Proof.
  revert i x. induction l as [ | y l IH]; intros i x.
  - unfold sum, last. cbn. ring.
  - rewrite last_cons, differences_cons, <- app_comm_cons, weighted_cons2.
    cbn [BlackHoles.mapTimes]. rewrite sum_cons, IH. reflexivity.
Qed.

Lemma calculateGameTime_weighted (g : Game) (t : Q) (sp : list Q) :
  BlackHoles.calculateGameTimeFromRealTime g t sp
  == weighted 0 (t :: activeFrom g (list_ g) t) sp.
Proof.
  unfold BlackHoles.calculateGameTimeFromRealTime,
    BlackHoles.realTimePeriodsWithBlackHoleEffective.
  rewrite realTimePeriodsWithBlackHoleActive_cons. apply weighted_mapTimes.
Qed.

Lemma isUnlocked_updatePhase (sh : bool) (g : Game) (b : BlackHoleState) (a : Q) :
  isUnlocked g (fst (updatePhase sh b a)) = isUnlocked g b.
Proof.
  unfold isUnlocked.
  destruct (updatePhase_frame sh b a) as (_ & _ & _ & _ & U & _). now rewrite U.
Qed.

(** ** The loop of [updatePhases] *)

(** Along a well-numbered list, the loop hands each black hole the active
    period at its own index: the active time of its host. *)
Lemma updateLoop_advance (sh : bool) (g : Game) (bhs : list BlackHoleState) :
  forall (pre : list Q) (x : Q),
    (forall (j : nat) (b : BlackHoleState),
        nth_error bhs j = Some b -> bh_id b = S (length pre + j)) ->
    fst (BlackHoles.updateLoop sh g bhs (pre ++ x :: activeFrom g bhs x))
    = advance sh g bhs x.
Proof.
  induction bhs as [ | b rest IH]; intros pre x Hid; cbn [BlackHoles.updateLoop advance].
  - reflexivity.
  - destruct (isUnlocked g b) eqn:U; cbn [negb fst]; [ | reflexivity ].
    assert (Eid : bh_id b = S (length pre)).
    { rewrite (Hid 0%nat b eq_refl). f_equal. lia. }
    rewrite Eid. cbn [BlackHoles.periodFor]. rewrite nth_middle.
    f_equal.
    cbn [activeFrom]. rewrite U. cbn [negb].
    specialize (IH (pre ++ [x]) (realTimeWhileActive b x)).
    rewrite <- app_assoc in IH. cbn [app] in IH. apply IH.
    intros j b' Hj. rewrite (Hid (S j) b' Hj), length_app. cbn [length]. f_equal. lia.
Qed.

Lemma periodFor_position (g : Game) (t : Q) (i : nat) (b : BlackHoleState) :
  wellNumbered g -> nth_error (list_ g) i = Some b ->
  (i < unlockedPrefix g (list_ g))%nat ->
  (i < length (BlackHoles.realTimePeriodsWithBlackHoleActive g t))%nat
  /\ BlackHoles.periodFor (BlackHoles.realTimePeriodsWithBlackHoleActive g t) (bh_id b)
     = nth i (BlackHoles.realTimePeriodsWithBlackHoleActive g t) 0.
Proof.
  intros Wn Hn Hi. rewrite (Wn i b Hn). split; [ | reflexivity ].
  rewrite realTimePeriodsWithBlackHoleActive_cons. cbn [length].
  rewrite activeFrom_length. lia.
Qed.

Lemma advance_length (sh : bool) (g : Game) (bhs : list BlackHoleState) (x : Q) :
  length (advance sh g bhs x) = length bhs.
Proof.
  revert x. induction bhs as [ | b rest IH]; intros x; cbn [advance]; [ reflexivity | ].
  destruct (negb (isUnlocked g b)); cbn [length]; [ reflexivity | now rewrite IH ].
Qed.

Lemma advance_beyond (sh : bool) (g : Game) (bhs : list BlackHoleState) :
  forall (x : Q) (i : nat),
    (unlockedPrefix g bhs <= i)%nat ->
    nth_error (advance sh g bhs x) i = nth_error bhs i.
Proof.
  induction bhs as [ | b rest IH]; intros x i Hi; cbn [advance unlockedPrefix] in *;
    [ reflexivity | ].
  destruct (negb (isUnlocked g b)); [ reflexivity | ].
  destruct i as [ | i]; [ lia | ]. cbn [nth_error]. apply IH. lia.
Qed.

Lemma advance_ids (sh : bool) (g : Game) (bhs : list BlackHoleState) :
  forall (x : Q) (i : nat) (b' : BlackHoleState),
    nth_error (advance sh g bhs x) i = Some b' ->
    exists b, nth_error bhs i = Some b /\ bh_id b' = bh_id b
              /\ isUnlocked g b' = isUnlocked g b.
Proof.
  induction bhs as [ | b rest IH]; intros x i b' Hn; cbn [advance] in Hn.
  - destruct i; discriminate.
  - destruct (negb (isUnlocked g b)) eqn:U.
    + exists b'. auto.
    + destruct i as [ | i]; cbn [nth_error] in *.
      * injection Hn as <-. exists b. split; [ reflexivity | ].
        destruct (updatePhase_frame sh b x) as (Eid & _).
        split; [ exact Eid | apply isUnlocked_updatePhase ].
      * apply (IH _ _ _ Hn).
Qed.

Lemma unlockedPrefix_nonempty (g : Game) :
  list_ g <> [] ->
  exists b, BlackHoles.areUnlocked g = Normal (isUnlocked g b) /\ hd_error (list_ g) = Some b.
Proof.
  unfold BlackHoles.areUnlocked, BlackHole. destruct (list_ g) as [ | b rest]; [ congruence | ].
  intros _. exists b. split; reflexivity.
Qed.

Lemma updatePhases_advance (sh : bool) (g : Game) (diff : Q) :
  wellNumbered g -> list_ g <> [] ->
  exists evs : list Event,
    BlackHoles.updatePhases sh g diff
    = Normal (if blackHolePause g then g
              else mkGame (advance sh g (list_ g) (diff / 1000))
                     (enslavedIsRunning g) (blackHolePause g),
              evs)
    /\ (blackHolePause g = true \/ unlockedPrefix g (list_ g) = 0%nat -> evs = []).
Proof.
  intros Wn Hne. unfold BlackHoles.updatePhases, BlackHoles.arePaused.
  destruct (unlockedPrefix_nonempty g Hne) as (b & Eu & Hb). rewrite Eu.
  destruct (list_ g) as [ | b0 rest] eqn:El; [ congruence | ].
  injection Hb as ->.
  destruct (isUnlocked g b) eqn:U; cbn [negb orb].
  - destruct (blackHolePause g) eqn:P.
    + exists []. split; [ reflexivity | reflexivity ].
    + eexists. split.
      * rewrite realTimePeriodsWithBlackHoleActive_cons, El.
        rewrite <- (updateLoop_advance sh g (b :: rest) [] (diff / 1000)).
        -- cbn [app]. reflexivity.
        -- intros j b' Hj. cbn [length Nat.add]. apply Wn. rewrite El. exact Hj.
      * intros [Hp | Hz]; [ discriminate | ].
        cbn [unlockedPrefix] in Hz. rewrite U in Hz. discriminate.
  - exists []. split; [ | reflexivity ].
    destruct (blackHolePause g) eqn:P; [ reflexivity | ].
    cbn [advance]. rewrite U. cbn [negb]. rewrite <- El, <- P.
    destruct g; reflexivity.
Qed.

(** X8.  [updatePhases] keeps the shape of the chain.  On a non-empty
    chain numbered as the game numbers it, a call does not throw (every
    active period the loop reads exists); afterwards the chain is numbered
    as before, its length and its flags are unchanged, and every black hole
    from the first locked one on is untouched.  When the game is paused or
    the first black hole is locked, nothing changes and nothing is
    notified. *)
Theorem updatePhases_keeps_chain (sh : bool) (g : Game) (diff : Q) :
  wellNumbered g -> list_ g <> [] ->
  exists (g' : Game) (evs : list Event),
    BlackHoles.updatePhases sh g diff = Normal (g', evs)
    /\ wellNumbered g'
    /\ enslavedIsRunning g' = enslavedIsRunning g
    /\ blackHolePause g' = blackHolePause g
    /\ length (list_ g') = length (list_ g)
    /\ (forall i : nat, (unlockedPrefix g (list_ g) <= i)%nat ->
                        nth_error (list_ g') i = nth_error (list_ g) i)
    /\ (blackHolePause g = true \/ unlockedPrefix g (list_ g) = 0%nat ->
        g' = g /\ evs = []).
Proof.
  intros Wn Hne.
  destruct (updatePhases_advance sh g diff Wn Hne) as (evs & E & Hev).
  eexists. exists evs. split; [ exact E | ].
  destruct (blackHolePause g) eqn:P.
  - split; [ exact Wn | ].
    split; [ reflexivity | ]. split; [ exact P | ].
    split; [ reflexivity | ]. split; [ reflexivity | ].
    intros _. split; [ reflexivity | apply Hev; left; reflexivity ].
  - cbn [list_ enslavedIsRunning blackHolePause].
    split.
    { intros i b' Hn. cbn [list_] in Hn.
      destruct (advance_ids sh g _ _ _ _ Hn) as (b & Hb & Eid & _).
      rewrite Eid. apply Wn. exact Hb. }
    split; [ reflexivity | ]. split; [ reflexivity | ].
    split; [ apply advance_length | ].
    split; [ intros i Hi; apply advance_beyond; exact Hi | ].
    intros [Hp | Hz]; [ discriminate | ].
    split; [ | apply Hev; right; exact Hz ].
    destruct g as [l e p]. cbn [list_ enslavedIsRunning blackHolePause] in *.
    f_equal; [ | symmetry; exact P ].
    destruct l as [ | b rest]; [ reflexivity | ].
    cbn [advance unlockedPrefix] in *.
    destruct (negb (isUnlocked _ b)); [ reflexivity | discriminate ].
Qed.

Lemma updatePhases_keeps_chain_witness :
  exists (g' : Game) (evs : list Event),
    BlackHoles.updatePhases true Scenario.chain 7500 = Normal (g', evs)
    /\ wellNumbered g'
    /\ length (list_ g') = 2%nat.
Proof.
  destruct (updatePhases_keeps_chain true Scenario.chain 7500)
    as (g' & evs & E & Wn & _ & _ & L & _).
  - intros i b H. destruct i as [ | [ | i]]; cbn in H.
    + injection H as <-. reflexivity.
    + injection H as <-. reflexivity.
    + destruct i; discriminate.
  - discriminate.
  - exists g', evs. repeat split; assumption.
Defined.

(** ** Where the binary search returns *)

Lemma median_double (s e : Q) : 2 * ((s + e) / 2) == s + e.
Proof. field. Qed.

Lemma binarySearch_between (f : Q -> Q) (target tol : Q) (fuel : nat) :
  forall (start end_ m : Q),
    start < end_ ->
    BlackHoles.binarySearch fuel start end_ f target tol = Some m ->
    start < m /\ m < end_.
Proof.
  induction fuel as [ | fuel IH]; intros start end_ m Hse; cbn [BlackHoles.binarySearch].
  - discriminate.
  - pose proof (median_double start end_) as M.
    set (med := (start + end_) / 2) in *.
    destruct (ltb (Qabs (f med - target)) tol).
    + intros E. injection E as <-. split; lra.
    + destruct (ltb (f med - target) 0); intros E;
        apply IH in E; try lra.
Qed.

(** X12.  No tick is empty.  For a total real time T > 0, whatever
    [calculateOfflineTick] returns is a pair whose real time x satisfies
    0 < x <= T: the real time of the tick is positive and within the
    total. *)
Theorem calculateOfflineTick_tick (getGameSpeedupFactor :
      list GameSpeedEffect -> option Q -> option nat -> Q)
    (fuel : nat) (g : Game) (T N tol x rate : Q) :
  0 < T ->
  BlackHoles.calculateOfflineTick getGameSpeedupFactor fuel g T N tol = Some (x, rate) ->
  0 < x /\ x <= T.
Proof.
  intros HT. unfold BlackHoles.calculateOfflineTick.
  destruct (Qeq_bool N 1).
  - intros E. injection E as <- <-. split; [ exact HT | lra ].
  - destruct (BlackHoles.binarySearch _ _ _ _ _ _) as [m | ] eqn:E; [ | discriminate ].
    intros R. injection R as <- <-.
    destruct (binarySearch_between _ _ _ _ _ _ _ HT E) as [L U].
    split; [ exact L | lra ].
Qed.

Lemma calculateOfflineTick_tick_witness :
  exists x rate : Q,
    BlackHoles.calculateOfflineTick Examples.speedupFactor 6 Scenario.chain 20 4 (1 # 10)
    = Some (x, rate)
    /\ 0 < x /\ x <= 20.
Proof.
  assert (E : { p : Q * Q |
                BlackHoles.calculateOfflineTick Examples.speedupFactor 6 Scenario.chain
                  20 4 (1 # 10) = Some p }).
  { eexists. vm_compute. reflexivity. }
  destruct E as [[x rate] E]. exists x, rate. split; [ exact E | ].
  apply (calculateOfflineTick_tick Examples.speedupFactor 6 Scenario.chain
           20 4 (1 # 10) x rate).
  - reflexivity.
  - exact E.
Defined.

(** ** The binary search on doubles *)

Lemma double_binarySearch_bracket (f : float -> float) (target tol : float) (n k : nat) :
  forall (s e s' e' : float),
    bracket n s e f target tol = Some (s', e') ->
    Double.BlackHoles.binarySearch (n + k) s e f target tol
    = Double.BlackHoles.binarySearch k s' e' f target tol.
Proof.
  induction n as [ | n IH]; intros s e s' e' B; cbn [bracket] in B.
  - injection B as <- <-. reflexivity.
  - cbn [Nat.add Double.BlackHoles.binarySearch]. cbv zeta in *.
    destruct (Double.ltb _ tol); [ discriminate | ].
    destruct (Double.ltb _ 0); apply IH; exact B.
Qed.

Lemma bracket_prefix (f : float -> float) (target tol : float) (m j : nat) :
  forall (s e : float) (p : float * float),
    bracket (m + j) s e f target tol = Some p ->
    exists p' : float * float, bracket m s e f target tol = Some p'.
Proof.
  induction m as [ | m IH]; intros s e p B.
  - eexists. reflexivity.
  - cbn [Nat.add bracket] in *. cbv zeta in *.
    destruct (Double.ltb _ tol); [ discriminate | ].
    destruct (Double.ltb _ 0); eapply IH; exact B.
Qed.

Lemma double_binarySearch_stuck (f : float -> float) (target tol s e : float) :
  bracket 1 s e f target tol = Some (s, e) ->
  forall fuel : nat, Double.BlackHoles.binarySearch fuel s e f target tol = None.
Proof.
  intros B fuel. induction fuel as [ | fuel IH]; [ reflexivity | ].
  change (S fuel) with (1 + fuel)%nat.
  rewrite (double_binarySearch_bracket f target tol 1 fuel s e s e B). exact IH.
Qed.

Lemma double_binarySearch_stalls (f : float -> float) (target tol : float) (n : nat)
    (s e s' e' : float) :
  bracket n s e f target tol = Some (s', e') ->
  bracket 1 s' e' f target tol = Some (s', e') ->
  forall fuel : nat, Double.BlackHoles.binarySearch fuel s e f target tol = None.
Proof.
  intros B Fix fuel. destruct (Nat.le_gt_cases n fuel) as [Le | Gt].
  - replace fuel with (n + (fuel - n))%nat by lia.
    rewrite (double_binarySearch_bracket f target tol n _ s e s' e' B).
    apply double_binarySearch_stuck. exact Fix.
  - replace n with (fuel + (n - fuel))%nat in B by lia.
    destruct (bracket_prefix f target tol fuel _ s e _ B) as [[s0 e0] B0].
    replace fuel with (fuel + 0)%nat at 1 by lia.
    rewrite (double_binarySearch_bracket f target tol fuel 0 s e s0 e0 B0). reflexivity.
Qed.

(** X11.  On doubles the bracket of [binarySearch] can stop shrinking: once
    an iteration that does not return leaves the bracket as it found it
    (the midpoint of two neighbouring doubles is one of them), every later
    iteration does the same and the search never returns, however many
    iterations it is given, although the tolerance is positive and the
    function increasing. *)
Theorem binarySearch_stalls (f : float -> float) (target tol : float) (n : nat)
    (start end_ s e : float) :
  bracket n start end_ f target tol = Some (s, e) ->
  bracket 1 s e f target tol = Some (s, e) ->
  forall fuel : nat, Double.BlackHoles.binarySearch fuel start end_ f target tol = None.
Proof.
  intros B Fix. exact (double_binarySearch_stalls f target tol n start end_ s e B Fix).
Qed.

Lemma binarySearch_stalls_witness :
  Double.ltb 0 1e-17 = true
  /\ bracket 54 0 4 (fun x => x * x)%float 2 1e-17
     = Some (1.4142135623730949, 1.4142135623730951)%float
  /\ forall fuel : nat,
       Double.BlackHoles.binarySearch fuel 0 4 (fun x => x * x)%float 2 1e-17 = None.
Proof.
  split; [ reflexivity | ].
  assert (B : bracket 54 0 4 (fun x => x * x)%float 2 1e-17
              = Some (1.4142135623730949, 1.4142135623730951)%float)
    by (vm_compute; reflexivity).
  split; [ exact B | ].
  apply (binarySearch_stalls (fun x => x * x)%float 2 1e-17 54 0 4
           1.4142135623730949 1.4142135623730951 B).
  vm_compute. reflexivity.
Defined.

(** X13.  [calculateOfflineTick] can run forever on doubles with a
    positive tolerance: when the number of ticks is not 1 and the bracket
    of its search stops shrinking, the call never returns.  So it is for
    one black hole with interval 3 and duration 2 at the start of its
    cooldown, speedups 1 and 5, 20 seconds cut into 3 ticks and a tolerance
    of 1e-16. *)
Theorem calculateOfflineTick_stalls (g : Double.Game) (speedups : list float)
    (T N tol : float) (n : nat) (s e : float) :
  PrimFloat.eqb N 1 = false ->
  let f := fun x : float =>
    (Double.BlackHoles.calculateGameTimeFromRealTime g x speedups * N
     / Double.BlackHoles.calculateGameTimeFromRealTime g T speedups)%float in
  bracket n 0 T f 1 tol = Some (s, e) ->
  bracket 1 s e f 1 tol = Some (s, e) ->
  forall fuel : nat, Double.BlackHoles.calculateOfflineTick fuel g speedups T N tol = None.
Proof.
  intros HN f B Fix fuel. unfold Double.BlackHoles.calculateOfflineTick. cbv zeta.
  rewrite HN.
  change (Double.BlackHoles.binarySearch fuel 0 T _ 1 tol)
    with (Double.BlackHoles.binarySearch fuel 0 T f 1 tol).
  rewrite (double_binarySearch_stalls f 1 tol n 0 T s e B Fix fuel). reflexivity.
Qed.

Lemma calculateOfflineTick_stalls_witness :
  Double.ltb 0 1e-16 = true
  /\ forall fuel : nat,
       Double.BlackHoles.calculateOfflineTick fuel
         (Double.Examples.game [Double.Examples.resting]) [1; 5]%float 20 3 1e-16
       = None.
Proof.
  split; [ reflexivity | ].
  apply (calculateOfflineTick_stalls (Double.Examples.game [Double.Examples.resting])
           [1; 5]%float 20 3 1e-16 54 8.2666666666666657 8.2666666666666675).
  - reflexivity.
  - vm_compute. reflexivity.
  - vm_compute. reflexivity.
Defined.

(** ** A speedup that is missing *)

Lemma double_nan_mul (x : float) : (x * nan)%float = nan.
Proof.
  apply Prim2SF_inj. rewrite mul_spec.
  change (Prim2SF nan) with S754_nan.
  destruct (Prim2SF x); reflexivity.
Qed.

Lemma double_nan_add_l (x : float) : (nan + x)%float = nan.
Proof.
  apply Prim2SF_inj. rewrite add_spec.
  change (Prim2SF nan) with S754_nan. reflexivity.
Qed.

Lemma double_nan_add_r (x : float) : (x + nan)%float = nan.
Proof.
  apply Prim2SF_inj. rewrite add_spec.
  change (Prim2SF nan) with S754_nan.
  destruct (Prim2SF x); reflexivity.
Qed.

Lemma double_sum_nan (l : list float) (acc : float) :
  In nan l -> fold_left PrimFloat.add l acc = nan.
Proof.
  revert acc. induction l as [ | x l IH]; intros acc H; [ destruct H | ].
  cbn [fold_left]. destruct H as [-> | H].
  - rewrite double_nan_add_r. clear IH.
    induction l as [ | y l IH]; [ reflexivity | ].
    cbn [fold_left]. rewrite double_nan_add_l. exact IH.
  - apply IH. exact H.
Qed.

Lemma double_mapTimes_nan (periods speedups : list float) :
  forall i : nat,
    (i <= length speedups)%nat ->
    (length speedups < i + length periods)%nat ->
    In nan (Double.BlackHoles.mapTimes i periods speedups).
Proof.
  induction periods as [ | p rest IH]; intros i Hi H; cbn [length] in H.
  - lia.
  - cbn [Double.BlackHoles.mapTimes].
    destruct (Nat.le_gt_cases (length speedups) i) as [Le | Gt].
    + left. rewrite (nth_overflow speedups nan Le). apply double_nan_mul.
    + right. apply IH; lia.
Qed.

Lemma double_differences_length (x : float) (l : list float) :
  length (Double.BlackHoles.differences (x :: l) ++ [Double.last (x :: l)]) = S (length l).
Proof.
  revert x. induction l as [ | y l IH]; intros x.
  - reflexivity.
  - rewrite double_last_cons, double_differences_cons, <- app_comm_cons.
    cbn [length]. now rewrite IH.
Qed.

(** X21.  A speedup that is missing makes the game time [NaN].  On doubles
    there is one effective period for the real time and one per black hole
    before the first locked one; when the list of speedups is shorter than
    that, [speedups[i]] is [undefined] for the last periods, their products
    are [NaN], and [calculateGameTimeFromRealTime] returns [NaN] whatever the
    real time. *)
Theorem calculateGameTime_missing_speedup (g : Double.Game) (t : float)
    (speedups : list float) :
  length (Double.BlackHoles.realTimePeriodsWithBlackHoleEffective g t)
  = S (length (Double.activeFrom g (Double.list_ g) t))
  /\ ((length speedups
       < length (Double.BlackHoles.realTimePeriodsWithBlackHoleEffective g t))%nat ->
      Double.BlackHoles.calculateGameTimeFromRealTime g t speedups = nan).
Proof.
  split.
  - unfold Double.BlackHoles.realTimePeriodsWithBlackHoleEffective.
    rewrite double_active_cons. apply double_differences_length.
  - intros H. unfold Double.BlackHoles.calculateGameTimeFromRealTime, Double.sum.
    cbv zeta. apply double_sum_nan. apply double_mapTimes_nan; [ lia | exact H ].
Qed.

Lemma calculateGameTime_missing_speedup_witness :
  Double.BlackHoles.calculateGameTimeFromRealTime
    (Double.Examples.game [Double.Examples.running; Double.Examples.second]) 20 [1; 5]%float
  = nan.
Proof.
  apply (proj2 (calculateGameTime_missing_speedup
                  (Double.Examples.game [Double.Examples.running; Double.Examples.second])
                  20 [1; 5]%float)).
  vm_compute. repeat constructor.
Defined.

(** ** Which black holes are active *)

Lemma firstn_snoc (l : list BlackHoleState) (i : nat) (b : BlackHoleState) :
  nth_error l i = Some b -> firstn (S i) l = firstn i l ++ [b].
Proof.
  revert i. induction l as [ | a l IH]; intros i Hn.
  - destruct i; discriminate.
  - destruct i as [ | i].
    + injection Hn as ->. reflexivity.
    + cbn [nth_error] in Hn. cbn [firstn app]. f_equal.
      rewrite <- (IH i Hn). reflexivity.
Qed.

Lemma isActive_step (fuel : nat) (g : Game) (b : BlackHoleState) :
  isActive (S fuel) g b
  = if isCharged b then
      if Nat.eqb (bh_id b) 1 then Some (Normal true)
      else match BlackHole g (bh_id b - 1) with
           | None => Some Throw
           | Some previous => isActive fuel g previous
           end
    else Some (Normal false).
Proof. reflexivity. Qed.

Lemma isActive_prefix (g : Game) :
  wellNumbered g ->
  forall (i : nat) (b : BlackHoleState),
    nth_error (list_ g) i = Some b ->
    isActive (S i) g b = Some (Normal (forallb isCharged (firstn (S i) (list_ g)))).
Proof.
  intros Wn. induction i as [ | i IH]; intros b Hn.
  - rewrite (firstn_snoc _ _ _ Hn). cbn [firstn app forallb isActive].
    rewrite (Wn _ _ Hn). cbn [Nat.eqb].
    destruct (isCharged b); reflexivity.
  - rewrite (firstn_snoc _ _ _ Hn), forallb_app. cbn [forallb].
    rewrite isActive_step, (Wn _ _ Hn).
    destruct (isCharged b); [ | now rewrite andb_false_r ].
    cbn [Nat.eqb Nat.sub BlackHole].
    destruct (nth_error (list_ g) i) as [prev | ] eqn:Hp.
    + rewrite (IH prev eq_refl), andb_true_r. reflexivity.
    + exfalso. apply nth_error_None in Hp.
      assert (nth_error (list_ g) (S i) <> None) by congruence.
      apply nth_error_Some in H. lia.
Qed.

Lemma isActive_more_fuel (g : Game) (fuel : nat) :
  forall (b : BlackHoleState) (r : completion bool),
    isActive fuel g b = Some r -> isActive (S fuel) g b = Some r.
Proof.
  induction fuel as [ | fuel IH]; intros b r; [ discriminate | ].
  rewrite (isActive_step (S fuel)), (isActive_step fuel).
  destruct (isCharged b); [ | auto ].
  destruct (Nat.eqb (bh_id b) 1); [ auto | ].
  destruct (BlackHole g (bh_id b - 1)) as [prev | ]; [ | auto ].
  intros H. apply IH in H. exact H.
Qed.

(** X14.  Activity is hierarchical.  In a chain numbered as the game
    numbers it, [isActive] of the black hole at index i needs at most i + 1
    nested calls, never reads a missing black hole, and holds exactly when
    that black hole and all the ones before it are charged. *)
Theorem isActive_all_charged (g : Game) (i fuel : nat) (b : BlackHoleState) :
  wellNumbered g -> nth_error (list_ g) i = Some b -> (i < fuel)%nat ->
  isActive fuel g b = Some (Normal (forallb isCharged (firstn (S i) (list_ g)))).
Proof.
  intros Wn Hn Hf.
  replace fuel with ((fuel - S i) + S i)%nat by lia.
  induction (fuel - S i)%nat as [ | k IH].
  - apply isActive_prefix; assumption.
  - cbn [Nat.add]. apply isActive_more_fuel. exact IH.
Qed.

Lemma isActive_all_charged_witness :
  isActive 5 Scenario.chain Examples.second = Some (Normal false)
  /\ isActive 5 Scenario.chain Examples.running = Some (Normal true).
Proof.
  assert (Wn : wellNumbered Scenario.chain).
  { intros i b H. destruct i as [ | [ | i]]; cbn in H.
    - injection H as <-. reflexivity.
    - injection H as <-. reflexivity.
    - destruct i; discriminate. }
  split.
  - apply (isActive_all_charged Scenario.chain 1 5 Examples.second Wn).
    + reflexivity.
    + repeat constructor.
  - apply (isActive_all_charged Scenario.chain 0 5 Examples.running Wn).
    + reflexivity.
    + repeat constructor.
Defined.

(** ** The locked chain and the speedups *)

Lemma speedupLoop_map (f : list GameSpeedEffect -> option Q -> option nat -> Q)
    (g : Game) (effects : list GameSpeedEffect) (w : Q) (bhs : list BlackHoleState) :
  forall acc : list Q,
    BlackHoles.speedupLoop f g effects w bhs acc
    = acc ++ map (fun b => f effects None (Some (bh_id b)) / w)
               (firstn (unlockedPrefix g bhs) bhs).
Proof.
  induction bhs as [ | b rest IH]; intros acc;
    cbn [BlackHoles.speedupLoop unlockedPrefix firstn map].
  - symmetry. apply app_nil_r.
  - destruct (negb (isUnlocked g b)).
    + cbn [firstn map]. symmetry. apply app_nil_r.
    + rewrite IH, <- app_assoc. reflexivity.
Qed.

(** X15.  [calculateSpeedups] returns 1 followed by one quotient per
    black hole visited before the first locked one (the factor with that
    many black holes active over the factor with the black hole effect
    overridden to 1); the list is as long as the effective periods, so
    every [speedups[i]] that [calculateGameTimeFromRealTime] reads exists;
    and the active periods are one more than the black holes visited. *)
Theorem calculateSpeedups_shape
    (getGameSpeedupFactor : list GameSpeedEffect -> option Q -> option nat -> Q)
    (g : Game) (t : Q) :
  BlackHoles.calculateSpeedups getGameSpeedupFactor g
  = 1 :: map (fun b => getGameSpeedupFactor [EC12; TIMEGLYPH; BLACKHOLE] None
                         (Some (bh_id b))
                       / getGameSpeedupFactor [EC12; TIMEGLYPH; BLACKHOLE] (Some 1) None)
           (firstn (unlockedPrefix g (list_ g)) (list_ g))
  /\ length (BlackHoles.calculateSpeedups getGameSpeedupFactor g)
     = length (BlackHoles.realTimePeriodsWithBlackHoleEffective g t)
  /\ length (BlackHoles.realTimePeriodsWithBlackHoleActive g t)
     = S (unlockedPrefix g (list_ g)).
Proof.
  split; [ | split ].
  - unfold BlackHoles.calculateSpeedups. rewrite speedupLoop_map. reflexivity.
  - apply speedups_length.
  - rewrite realTimePeriodsWithBlackHoleActive_cons. cbn [length].
    now rewrite activeFrom_length.
Qed.

Lemma activeFrom_locked (g : Game) (bhs : list BlackHoleState) (t : Q) :
  unlockedPrefix g bhs = 0%nat -> activeFrom g bhs t = [].
Proof.
  destruct bhs as [ | b rest]; cbn [activeFrom unlockedPrefix]; [ reflexivity | ].
  destruct (negb (isUnlocked g b)); [ reflexivity | discriminate ].
Qed.

(** X16.  With the first black hole locked (for one, whenever Enslaved
    is running), the active and the effective periods are the real time
    alone, the speedups are [1], and the game time is the real time. *)
Theorem locked_chain_real_time
    (getGameSpeedupFactor : list GameSpeedEffect -> option Q -> option nat -> Q)
    (g : Game) (t : Q) :
  unlockedPrefix g (list_ g) = 0%nat ->
  BlackHoles.realTimePeriodsWithBlackHoleActive g t = [t]
  /\ BlackHoles.realTimePeriodsWithBlackHoleEffective g t = [t]
  /\ BlackHoles.calculateSpeedups getGameSpeedupFactor g = [1]
  /\ BlackHoles.calculateGameTimeFromRealTime g t
       (BlackHoles.calculateSpeedups getGameSpeedupFactor g) == t.
Proof.
  intros Hz.
  assert (Ea : BlackHoles.realTimePeriodsWithBlackHoleActive g t = [t]).
  { rewrite realTimePeriodsWithBlackHoleActive_cons, activeFrom_locked by exact Hz.
    reflexivity. }
  assert (Es : BlackHoles.calculateSpeedups getGameSpeedupFactor g = [1]).
  { unfold BlackHoles.calculateSpeedups. rewrite speedupLoop_map, Hz. reflexivity. }
  split; [ exact Ea | ].
  split; [ unfold BlackHoles.realTimePeriodsWithBlackHoleEffective; rewrite Ea; reflexivity | ].
  split; [ exact Es | ].
  rewrite calculateGameTime_weighted, activeFrom_locked, Es by exact Hz.
  cbn [weighted nth]. ring.
Qed.

Lemma locked_chain_real_time_witness :
  BlackHoles.calculateGameTimeFromRealTime Scenario.lockedChain 500
    (BlackHoles.calculateSpeedups Examples.speedupFactor Scenario.lockedChain)
  == 500.
Proof.
  apply (locked_chain_real_time Examples.speedupFactor Scenario.lockedChain 500).
  reflexivity.
Defined.

Lemma enslaved_locks (g : Game) :
  enslavedIsRunning g = true -> unlockedPrefix g (list_ g) = 0%nat.
Proof.
  intros E. destruct (list_ g) as [ | b rest]; cbn [unlockedPrefix]; [ reflexivity | ].
  unfold isUnlocked. rewrite E, andb_false_r. reflexivity.
Qed.

(** ** What an upgrade does to the values *)

Lemma Qpower_succ (a : Q) (n : nat) : a ^ Z.of_nat (S n) == a * a ^ Z.of_nat n.
Proof.
  rewrite Nat2Z.inj_succ. unfold Z.succ.
  destruct (Qeq_dec a 0) as [Z0 | NZ].
  - rewrite Z0. rewrite Qpower_0; [ ring | lia ].
  - rewrite Qpower_plus by exact NZ. simpl (a ^ 1). ring.
Qed.

(** X17.  What an upgrade does to the values: each interval upgrade
    shrinks the interval, which stays positive; each power upgrade raises
    the power, which is positive; and for the constructor arguments 0, 1
    and 2 each duration upgrade raises the duration, which is positive. *)
Theorem upgrade_values_monotone (id amount : nat) :
  0 < Upgrades.intervalValue id (S amount)
  /\ Upgrades.intervalValue id (S amount) < Upgrades.intervalValue id amount
  /\ 0 < Upgrades.powerValue id amount
  /\ Upgrades.powerValue id amount < Upgrades.powerValue id (S amount)
  /\ ((id < 3)%nat ->
      0 < Upgrades.durationValue id amount
      /\ Upgrades.durationValue id amount < Upgrades.durationValue id (S amount)).
Proof.
  pose proof (intervalValue_pos id amount) as I0.
  pose proof (intervalValue_pos id (S amount)) as I1.
  assert (EI : Upgrades.intervalValue id (S amount)
               == (8 # 10) * Upgrades.intervalValue id amount).
  { unfold Upgrades.intervalValue. rewrite Qpower_succ. ring. }
  assert (P0 : 0 < Upgrades.powerValue id amount).
  { unfold Upgrades.powerValue.
    assert (P2 : 0 < 2 ^ Z.of_nat id) by (apply Qpower_0_lt; reflexivity).
    assert (P1 : 0 < (135 # 100) ^ Z.of_nat amount) by (apply Qpower_0_lt; reflexivity).
    apply Qmult_lt_0_compat; [ | exact P1 ].
    apply Qlt_shift_div_l; [ exact P2 | lra ]. }
  assert (EP : Upgrades.powerValue id (S amount)
               == (135 # 100) * Upgrades.powerValue id amount).
  { unfold Upgrades.powerValue. rewrite Qpower_succ. ring. }
  split; [ exact I1 | ]. split; [ lra | ].
  split; [ exact P0 | ]. split; [ lra | ].
  intros Hid. pose proof (durationValue_pos id amount Hid) as D0.
  assert (ED : Upgrades.durationValue id (S amount)
               == (13 # 10) * Upgrades.durationValue id amount).
  { unfold Upgrades.durationValue. rewrite Qpower_succ. ring. }
  split; [ exact D0 | lra ].
Qed.

Lemma upgrade_values_monotone_witness :
  0 < Upgrades.durationValue 2 3
  /\ Upgrades.durationValue 2 3 < Upgrades.durationValue 2 4.
Proof.
  apply (proj2 (proj2 (proj2 (proj2 (upgrade_values_monotone 2 3))))).
  repeat constructor.
Defined.

(** ** Pausing and unlocking *)

(** X18.  Pausing and back.  On an unlocked, unpaused chain [togglePause]
    sets the pause flag and notifies the pause, leaving the black holes as
    they are; while paused [updatePhases] changes nothing, whatever the
    time; and a second [togglePause] gives back the game as it was. *)
Theorem togglePause_round_trip (g : Game) :
  BlackHoles.areUnlocked g = Normal true -> blackHolePause g = false ->
  exists g1 : Game,
    BlackHoles.togglePause g = Normal (g1, [BlackHoles.BlackHolePaused])
    /\ list_ g1 = list_ g /\ blackHolePause g1 = true
    /\ (forall (sh : bool) (diff : Q), BlackHoles.updatePhases sh g1 diff = Normal (g1, []))
    /\ BlackHoles.togglePause g1 = Normal (g, [BlackHoles.BlackHoleUnpaused]).
Proof.
  intros U P. destruct g as [l e p]. cbn [blackHolePause] in P. subst p.
  unfold BlackHoles.togglePause. rewrite U. cbn [negb blackHolePause list_ enslavedIsRunning].
  eexists. split; [ reflexivity | ].
  assert (U1 : BlackHoles.areUnlocked (mkGame l e true) = Normal true).
  { revert U. unfold BlackHoles.areUnlocked, BlackHole, isUnlocked. cbn [list_ enslavedIsRunning].
    auto. }
  split; [ reflexivity | ]. split; [ reflexivity | ].
  split.
  - intros sh diff. unfold BlackHoles.updatePhases, BlackHoles.arePaused. rewrite U1.
    cbn [negb orb blackHolePause]. reflexivity.
  - rewrite U1. cbn [negb blackHolePause list_ enslavedIsRunning]. reflexivity.
Qed.

Lemma togglePause_round_trip_witness :
  exists g1 : Game,
    BlackHoles.togglePause Scenario.chain = Normal (g1, [BlackHoles.BlackHolePaused])
    /\ BlackHoles.togglePause g1 = Normal (Scenario.chain, [BlackHoles.BlackHoleUnpaused]).
Proof.
  destruct (togglePause_round_trip Scenario.chain) as (g1 & E1 & _ & _ & _ & E2).
  - reflexivity.
  - reflexivity.
  - exists g1. split; assumption.
Defined.

Lemma areUnlocked_after_unlock (first : BlackHoleState) (rest : list BlackHoleState)
    (e p : bool) :
  BlackHoles.areUnlocked (mkGame (set_unlocked first true :: rest) e p) = Normal (negb e).
Proof. reflexivity. Qed.

(** X19.  Unlocking is paid once.  While Enslaved is not running and the
    reality machines are not negative, a call of [unlock] that returns
    leaves them non-negative; it either changes nothing, or takes exactly
    50, unlocks the first black hole (which was locked), touches no other
    black hole and unlocks achievement 144; and a second call right after
    changes nothing. *)
Theorem unlock_once (p p' : Player) (evs : list GameEvent) :
  enslavedIsRunning (world p) = false -> 0 <= realityMachines p ->
  BlackHoles.unlock p = Normal (p', evs) ->
  0 <= realityMachines p'
  /\ (p' = p /\ evs = []
      \/ realityMachines p' = realityMachines p - 50
         /\ evs = [AchievementUnlock 144]
         /\ BlackHoles.areUnlocked (world p) = Normal false
         /\ BlackHoles.areUnlocked (world p') = Normal true
         /\ tl (list_ (world p')) = tl (list_ (world p)))
  /\ BlackHoles.unlock p' = Normal (p', []).
Proof.
  intros En Hrm. unfold BlackHoles.unlock at 1.
  destruct (BlackHoles.canBeUnlocked p) as [[ | ] | ] eqn:C; [ | | discriminate ].
  - unfold BlackHoles.canBeUnlocked in C.
    destruct (geb (realityMachines p) 50) eqn:G; [ | discriminate ].
    apply geb_true in G.
    destruct (BlackHoles.areUnlocked (world p)) as [u | ] eqn:U; [ | discriminate ].
    injection C as C. destruct u; [ discriminate | ].
    destruct (list_ (world p)) as [ | first rest] eqn:El; [ discriminate | ].
    intros E. injection E as <- <-. cbn [realityMachines world list_ tl].
    split; [ lra | ]. split.
    + right. rewrite areUnlocked_after_unlock, En. repeat split; reflexivity.
    + unfold BlackHoles.unlock, BlackHoles.canBeUnlocked. cbn [realityMachines world].
      rewrite areUnlocked_after_unlock, En. cbn [negb].
      destruct (geb (realityMachines p - 50) 50); reflexivity.
  - intros E. injection E as <- <-.
    split; [ exact Hrm | ]. split; [ left; split; reflexivity | ].
    unfold BlackHoles.unlock. rewrite C. reflexivity.
Qed.

Lemma unlock_once_witness :
  exists (p' : Player) (evs : list GameEvent),
    BlackHoles.unlock Scenario.player = Normal (p', evs)
    /\ 0 <= realityMachines p'
    /\ BlackHoles.unlock p' = Normal (p', []).
Proof.
  assert (E : { r : Player * list GameEvent |
                BlackHoles.unlock Scenario.player = Normal r }).
  { eexists. vm_compute. reflexivity. }
  destruct E as [[p' evs] E]. exists p', evs. split; [ exact E | ].
  destruct (unlock_once Scenario.player p' evs) as (R & _ & U).
  - reflexivity.
  - discriminate.
  - exact E.
  - split; assumption.
Defined.

(** ** Buying upgrades *)

Lemma purchase_cases (u : BlackHoleUpgradeState) (cost rm : Q) (d : BlackHoleData) :
  (rm < cost /\ BlackHoleUpgrade.purchase u cost rm d = (rm, d, []))
  \/ (cost <= rm
      /\ BlackHoleUpgrade.purchase u cost rm d
         = (rm - cost, BlackHoleUpgrade.incrementAmount u d, [BLACK_HOLE_UPGRADE_BOUGHT])).
Proof.
  unfold BlackHoleUpgrade.purchase, BlackHoleUpgrade.isAffordable.
  destruct (geb rm cost) eqn:G; cbn [negb].
  - right. split; [ apply geb_true; exact G | reflexivity ].
  - left. split; [ apply geb_false; exact G | reflexivity ].
Qed.

Lemma incrementAmount_built (u : BlackHoleUpgradeState) (d : BlackHoleData) :
  builtUpgrade u ->
  let d' := BlackHoleUpgrade.incrementAmount u d in
  getAmount u d' = S (getAmount u d)
  /\ unlocked d' = unlocked d /\ active d' = active d /\ phase d' = phase d
  /\ activations d' = activations d
  /\ (intervalUpgrades d' + powerUpgrades d' + durationUpgrades d'
      = S (intervalUpgrades d + powerUpgrades d + durationUpgrades d))%nat.
Proof.
  intros (id & [-> | [-> | ->]]); unfold BlackHoleUpgrade.incrementAmount;
    cbn [getAmount setAmount BlackHoleUpgrade.intervalUpgrade BlackHoleUpgrade.powerUpgrade
         BlackHoleUpgrade.durationUpgrade unlocked active phase activations
         intervalUpgrades powerUpgrades durationUpgrades];
    repeat split; lia.
Qed.

(** What [incrementAmount] leaves alone, for each of the three upgrades. *)
Lemma incrementAmount_others (id : nat) (d : BlackHoleData) :
  (powerUpgrades (BlackHoleUpgrade.incrementAmount (BlackHoleUpgrade.intervalUpgrade id) d)
   = powerUpgrades d
   /\ durationUpgrades
        (BlackHoleUpgrade.incrementAmount (BlackHoleUpgrade.intervalUpgrade id) d)
      = durationUpgrades d)
  /\ (intervalUpgrades
        (BlackHoleUpgrade.incrementAmount (BlackHoleUpgrade.powerUpgrade id) d)
      = intervalUpgrades d
      /\ durationUpgrades
           (BlackHoleUpgrade.incrementAmount (BlackHoleUpgrade.powerUpgrade id) d)
         = durationUpgrades d)
  /\ (intervalUpgrades
        (BlackHoleUpgrade.incrementAmount (BlackHoleUpgrade.durationUpgrade id) d)
      = intervalUpgrades d
      /\ powerUpgrades
           (BlackHoleUpgrade.incrementAmount (BlackHoleUpgrade.durationUpgrade id) d)
         = powerUpgrades d).
Proof. repeat split. Qed.

Lemma purchases_others (id : nat) (costs : list Q) :
  forall (rm : Q) (d : BlackHoleData),
    (let r := BlackHoleUpgrade.purchases (BlackHoleUpgrade.intervalUpgrade id) costs rm d in
     powerUpgrades (snd r) = powerUpgrades d
     /\ durationUpgrades (snd r) = durationUpgrades d)
    /\ (let r := BlackHoleUpgrade.purchases (BlackHoleUpgrade.powerUpgrade id) costs rm d in
        intervalUpgrades (snd r) = intervalUpgrades d
        /\ durationUpgrades (snd r) = durationUpgrades d)
    /\ (let r := BlackHoleUpgrade.purchases (BlackHoleUpgrade.durationUpgrade id) costs rm d in
        intervalUpgrades (snd r) = intervalUpgrades d
        /\ powerUpgrades (snd r) = powerUpgrades d).
Proof.
  induction costs as [ | c rest IH]; intros rm d; cbn [BlackHoleUpgrade.purchases].
  - cbn [snd]. repeat split.
  - cbv zeta.
    destruct (incrementAmount_others id d) as ((I1 & I2) & (P1 & P2) & (D1 & D2)).
    split; [ | split ].
    + destruct (purchase_cases (BlackHoleUpgrade.intervalUpgrade id) c rm d)
        as [[_ E] | [_ E]]; rewrite E; cbn [fst snd].
      * exact (proj1 (IH rm d)).
      * destruct (proj1 (IH (rm - c)
                           (BlackHoleUpgrade.incrementAmount
                              (BlackHoleUpgrade.intervalUpgrade id) d))) as [A B].
        cbv zeta in A, B. split; congruence.
    + destruct (purchase_cases (BlackHoleUpgrade.powerUpgrade id) c rm d)
        as [[_ E] | [_ E]]; rewrite E; cbn [fst snd].
      * exact (proj1 (proj2 (IH rm d))).
      * destruct (proj1 (proj2 (IH (rm - c)
                           (BlackHoleUpgrade.incrementAmount
                              (BlackHoleUpgrade.powerUpgrade id) d)))) as [A B].
        cbv zeta in A, B. split; congruence.
    + destruct (purchase_cases (BlackHoleUpgrade.durationUpgrade id) c rm d)
        as [[_ E] | [_ E]]; rewrite E; cbn [fst snd].
      * exact (proj2 (proj2 (IH rm d))).
      * destruct (proj2 (proj2 (IH (rm - c)
                           (BlackHoleUpgrade.incrementAmount
                              (BlackHoleUpgrade.durationUpgrade id) d)))) as [A B].
        cbv zeta in A, B. split; congruence.
Qed.

Lemma purchases_counts (u : BlackHoleUpgradeState) (costs : list Q) :
  builtUpgrade u ->
  forall (rm : Q) (d : BlackHoleData),
    0 <= rm ->
    let r := BlackHoleUpgrade.purchases u costs rm d in
    0 <= fst r
    /\ (Forall (fun c => 0 <= c) costs -> fst r <= rm)
    /\ (getAmount u d <= getAmount u (snd r) <= getAmount u d + length costs)%nat
    /\ unlocked (snd r) = unlocked d /\ active (snd r) = active d
    /\ phase (snd r) = phase d /\ activations (snd r) = activations d.
Proof.
  intros B. induction costs as [ | c rest IH]; intros rm d Hrm; cbn [BlackHoleUpgrade.purchases].
  - cbn [fst snd length]. repeat split; try lra; try lia.
  - destruct (purchase_cases u c rm d) as [[Lt E] | [Le E]]; rewrite E; cbn [fst snd].
    + destruct (IH rm d Hrm) as (R0 & R1 & A & F).
      split; [ exact R0 | ].
      split; [ intros Fc; inversion Fc; subst; auto | ].
      split; [ cbn [length]; lia | exact F ].
    + assert (Hrm' : 0 <= rm - c) by lra.
      destruct (IH (rm - c) (BlackHoleUpgrade.incrementAmount u d) Hrm')
        as (R0 & R1 & A & F1 & F2 & F3 & F4).
      destruct (incrementAmount_built u d B) as (G1 & U1 & U2 & U3 & U4 & T).
      split; [ exact R0 | ].
      split.
      { intros Fc. inversion Fc as [ | ? ? Hc Frest]; subst.
        specialize (R1 Frest). lra. }
      split; [ cbn [length]; lia | ].
      repeat split; congruence.
Qed.

(** X20.  Buying never overdraws.  For any of the three upgrades the
    constructor builds and any sequence of purchase attempts at any costs,
    starting from non-negative reality machines: the reality machines stay
    non-negative (and do not grow when no cost is negative); the counter of
    the upgrade only grows, by at most one per attempt; each of the other
    two counters is unchanged; and unlocked, active, phase and activations
    are untouched. *)
Theorem purchases_invariant (u : BlackHoleUpgradeState) (costs : list Q) :
  builtUpgrade u ->
  forall (rm : Q) (d : BlackHoleData),
    0 <= rm ->
    let r := BlackHoleUpgrade.purchases u costs rm d in
    0 <= fst r
    /\ (Forall (fun c => 0 <= c) costs -> fst r <= rm)
    /\ (getAmount u d <= getAmount u (snd r) <= getAmount u d + length costs)%nat
    /\ ((forall id : nat, u = BlackHoleUpgrade.intervalUpgrade id ->
           powerUpgrades (snd r) = powerUpgrades d
           /\ durationUpgrades (snd r) = durationUpgrades d)
        /\ (forall id : nat, u = BlackHoleUpgrade.powerUpgrade id ->
              intervalUpgrades (snd r) = intervalUpgrades d
              /\ durationUpgrades (snd r) = durationUpgrades d)
        /\ (forall id : nat, u = BlackHoleUpgrade.durationUpgrade id ->
              intervalUpgrades (snd r) = intervalUpgrades d
              /\ powerUpgrades (snd r) = powerUpgrades d))
    /\ unlocked (snd r) = unlocked d /\ active (snd r) = active d
    /\ phase (snd r) = phase d /\ activations (snd r) = activations d.
Proof.
  intros B rm d Hrm. cbv zeta.
  destruct (purchases_counts u costs B rm d Hrm) as (R0 & R1 & A & F).
  split; [ exact R0 | ]. split; [ exact R1 | ]. split; [ exact A | ].
  split; [ | exact F ].
  split; [ | split ]; intros id ->.
  - exact (proj1 (purchases_others id costs rm d)).
  - exact (proj1 (proj2 (purchases_others id costs rm d))).
  - exact (proj2 (proj2 (purchases_others id costs rm d))).
Qed.

Lemma purchases_invariant_witness :
  0 <= fst (BlackHoleUpgrade.purchases (BlackHoleUpgrade.intervalUpgrade 0)
              [15; 52; 1000] 100 Examples.freshData)
  /\ getAmount (BlackHoleUpgrade.intervalUpgrade 0)
       (snd (BlackHoleUpgrade.purchases (BlackHoleUpgrade.intervalUpgrade 0)
               [15; 52; 1000] 100 Examples.freshData))
     = 2%nat.
Proof.
  assert (B : builtUpgrade (BlackHoleUpgrade.intervalUpgrade 0)).
  { exists 0%nat. left. reflexivity. }
  assert (H : 0 <= 100) by discriminate.
  split.
  - exact (proj1 (purchases_invariant (BlackHoleUpgrade.intervalUpgrade 0)
                    [15; 52; 1000] B 100 Examples.freshData H)).
  - reflexivity.
Defined.
